(** * Attendance time calculation: a shallow embedding of [js/monthly.js]
      and [js/timecard-history.js]

    The development follows the JavaScript sources function by function:

    - [F64]: the binary64 arithmetic behind the JavaScript [Number]s that
      are not integers ([workHours], [overtimeHours]);
    - [JSDate]: the part of the ECMAScript [Date] object the sources use
      ([new Date(y, m, d)], [setMonth], [setHours], [getMonth], [getDay]);
    - [Monthly]: [calculatePeriod], [isHoliday], [calculateDayWorkData] and
      the per-employee loop of [calculateMonthlySummary];
    - [History]: [calculateWorkTime] of the time-card history view, with its
      nested-loop break pairing.

    Instants are integers: milliseconds since the epoch, as held by a
    [Date].  Minutes and counters are integers as well: sums and
    differences of integer-valued doubles are exact below 2^53, and
    [Math.floor(x / 60000)] on a whole number [x] of milliseconds is
    written as the integer division it computes (the quotient is at least
    1/60000 away from the next integer, more than a binary64 division
    errs by; [minutes_of_ms_binary64] evaluates both on the minutes of a
    day).  Hours are not whole numbers, so the overtime figure is
    computed in binary64 as the source does. *)

From Stdlib Require Import ZArith List Bool String Ascii Lia.
From Stdlib Require Import Sorting.Sorted Sorting.Permutation.
From Stdlib Require Import Floats.SpecFloat.
From Stdlib Require Import DecimalString.
Import ListNotations.

Local Open Scope Z_scope.

(* ================================================================== *)
(** ** Binary64 numbers *)
(* ================================================================== *)

Module F64.

Definition prec : Z := 53.
Definition emax : Z := 1024.

Definition num := spec_float.

(** The double nearest to an integer (exact below 2^53). *)
Definition of_Z (z : Z) : num := binary_normalize prec emax z 0 false.

Definition zero : num := S754_zero false.

Definition div (x y : num) : num := SFdiv prec emax x y.
Definition sub (x y : num) : num := SFsub prec emax x y.
Definition mul (x y : num) : num := SFmul prec emax x y.
Definition add (x y : num) : num := SFadd prec emax x y.
Definition ltb (x y : num) : bool := SFltb x y.

(** [Math.max(0, x)]. *)
Definition max0 (x : num) : num :=
  match x with
  | S754_nan => S754_nan
  | _ => if ltb zero x then x else zero
  end.

(** The integer part of [Math.floor(x)] for a finite [x]. *)
Definition floorZ (x : num) : Z :=
  match x with
  | S754_finite s m e =>
      let v := cond_Zopp s (Zpos m) in
      if 0 <=? e then v * 2 ^ e else v / 2 ^ (- e)
  | _ => 0
  end.

(** [Math.floor(x)]: infinities, NaN and zeros are returned unchanged. *)
Definition floor (x : num) : num :=
  match x with
  | S754_finite s _ _ =>
      let z := floorZ x in
      if z =? 0 then S754_zero s else of_Z z
  | _ => x
  end.

(** JavaScript truthiness of a number: [0], [-0] and [NaN] are falsy. *)
Definition truthy (x : num) : bool :=
  match x with
  | S754_zero _ | S754_nan => false
  | _ => true
  end.

End F64.

(* ================================================================== *)
(** ** The ECMAScript Date abstraction *)
(* ================================================================== *)

Module JSDate.

Definition msPerDay : Z := 86400000.
Definition msPerHour : Z := 3600000.
Definition msPerMinute : Z := 60000.
Definition msPerSecond : Z := 1000.

Definition Day (t : Z) : Z := t / msPerDay.
Definition TimeWithinDay (t : Z) : Z := t mod msPerDay.

(** Day number of the civil date [y]-[m]-[d], [m] in 1..12, counted from
    1970-01-01 (proleptic Gregorian calendar). *)
Definition days_from_civil (y m d : Z) : Z :=
  let y' := if m <=? 2 then y - 1 else y in
  let era := y' / 400 in
  let yoe := y' - era * 400 in
  let mp := (m + 9) mod 12 in
  let doy := (153 * mp + 2) / 5 + d - 1 in
  let doe := yoe * 365 + yoe / 4 - yoe / 100 + doy in
  era * 146097 + doe - 719468.

(** The civil date (year, month in 1..12, day of month) of a day number. *)
Definition civil_from_days (z : Z) : Z * Z * Z :=
  let z' := z + 719468 in
  let era := z' / 146097 in
  let doe := z' - era * 146097 in
  let yoe := (doe - doe / 1460 + doe / 36524 - doe / 146096) / 365 in
  let doy := doe - (365 * yoe + yoe / 4 - yoe / 100) in
  let mp := (5 * doy + 2) / 153 in
  let d := doy - (153 * mp + 2) / 5 + 1 in
  let m := if mp <? 10 then mp + 3 else mp - 9 in
  let y := yoe + era * 400 in
  (if m <=? 2 then y + 1 else y, m, d).

Definition YearFromTime (t : Z) : Z := fst (fst (civil_from_days (Day t))).
(** Months are numbered from 0, as in ECMAScript. *)
Definition MonthFromTime (t : Z) : Z := snd (fst (civil_from_days (Day t))) - 1.
Definition DateFromTime (t : Z) : Z := snd (civil_from_days (Day t)).
Definition WeekDay (t : Z) : Z := (Day t + 4) mod 7.

Definition MakeTime (h m s ms : Z) : Z :=
  h * msPerHour + m * msPerMinute + s * msPerSecond + ms.

(** [MakeDay(year, month, date)]: months outside 0..11 carry into the
    year, and [date] is an offset from the first of the month, so that
    day 0, day 32 and so on roll over. *)
Definition MakeDay (year month date : Z) : Z :=
  let ym := year + month / 12 in
  let mn := month mod 12 in
  days_from_civil ym (mn + 1) 1 + date - 1.

Definition MakeDate (day time : Z) : Z := day * msPerDay + time.

Definition isLeapYear (y : Z) : bool :=
  (y mod 4 =? 0) && (negb (y mod 100 =? 0) || (y mod 400 =? 0)).

(** Length of month [m] (1..12) of year [y]. *)
Definition daysInMonth (y m : Z) : Z :=
  if m =? 2 then (if isLeapYear y then 29 else 28)
  else if (m =? 4) || (m =? 6) || (m =? 9) || (m =? 11) then 30
  else 31.

(** The two calendar conversions within one 400-year era: [yoe] is the
    year of the era of the March-based year, [doe] the day of the era. *)
Definition doeOf (yoe m d : Z) : Z :=
  yoe * 365 + yoe / 4 - yoe / 100 + ((153 * ((m + 9) mod 12) + 2) / 5 + d - 1).

Definition civilOfDoe (doe : Z) : Z * Z * Z :=
  let yoe := (doe - doe / 1460 + doe / 36524 - doe / 146096) / 365 in
  let doy := doe - (365 * yoe + yoe / 4 - yoe / 100) in
  let mp := (5 * doy + 2) / 153 in
  let d := doy - (153 * mp + 2) / 5 + 1 in
  let m := if mp <? 10 then mp + 3 else mp - 9 in
  (yoe, m, d).

(** January and February belong to the March-based year before. *)
Definition janFeb (m : Z) : Z := if m <=? 2 then 1 else 0.

(** Whether day [d] of month [m], if the month has it, survives the
    round trip through its day of the era. *)
Definition roundTripOk (yoe m d : Z) : bool :=
  negb (d <=? daysInMonth (yoe + janFeb m) m) ||
  (let doe := doeOf yoe m d in
   (0 <=? doe) && (doe <? 146097) &&
   match civilOfDoe doe with
   | (yoe', m', d') => (yoe' =? yoe) && (m' =? m) && (d' =? d)
   end).

(** The integers [lo], [lo + 1], ..., [lo + n - 1]. *)
Definition zrange (lo : Z) (n : nat) : list Z :=
  map (fun k => lo + Z.of_nat k) (seq 0 n).

(** The check of every day of a month, and of every month of a year. *)
Definition checkDays (yoe m : Z) : bool :=
  forallb (roundTripOk yoe m) (zrange 1 31).

Definition checkMonths (yoe : Z) : bool :=
  forallb (checkDays yoe) (zrange 1 12).

(** [TimeClip]: a [Date] holds no time value beyond 8.64e15 ms from the
    epoch; [None] is the invalid date. *)
Definition maxTime : Z := 8640000000000000.

Definition TimeClip (t : Z) : option Z :=
  if Z.abs t <=? maxTime then Some t else None.

Section LocalZone.

(** Offset of local time from UTC in milliseconds.  The zone is taken
    to have a constant offset (the application runs in Japan, UTC+9,
    which has no daylight saving time). *)
Variable tza : Z.

Definition LocalTime (t : Z) : Z := t + tza.
Definition UTC (t : Z) : Z := t - tza.

(** [new Date(year, month, date, hours, minutes, seconds, ms)]. *)
Definition newDate7 (year month date h mi s ms : Z) : Z :=
  let yr := if (0 <=? year) && (year <=? 99) then 1900 + year else year in
  UTC (MakeDate (MakeDay yr month date) (MakeTime h mi s ms)).

(** [new Date(year, month, date)]. *)
Definition newDate (year month date : Z) : Z :=
  newDate7 year month date 0 0 0 0.

Definition getFullYear (t : Z) : Z := YearFromTime (LocalTime t).
Definition getMonth (t : Z) : Z := MonthFromTime (LocalTime t).
Definition getDate (t : Z) : Z := DateFromTime (LocalTime t).
Definition getDay (t : Z) : Z := WeekDay (LocalTime t).

(** [d.setMonth(month)]: the day of the month and the time of day are
    kept, so a day that the new month does not have rolls over. *)
Definition setMonth (t month : Z) : Z :=
  let lt := LocalTime t in
  UTC (MakeDate (MakeDay (YearFromTime lt) month (DateFromTime lt))
                (TimeWithinDay lt)).

(** [d.setHours(h, m, s, ms)]. *)
Definition setHours (t h mi s ms : Z) : Z :=
  UTC (MakeDate (Day (LocalTime t)) (MakeTime h mi s ms)).

End LocalZone.

End JSDate.

(* ================================================================== *)
(** ** Attendance records *)
(* ================================================================== *)

(** The [type] field of a record of the [attendance] collection. *)
Inductive RecordType :=
| clock_in | clock_out | break_start | break_end | paid_leave | absence.

Definition RecordType_eqb (a b : RecordType) : bool :=
  match a, b with
  | clock_in, clock_in | clock_out, clock_out
  | break_start, break_start | break_end, break_end
  | paid_leave, paid_leave | absence, absence => true
  | _, _ => false
  end.

(** One punch.  [timestamp] is the instant [r.timestamp.toDate()] in
    milliseconds; [pcIdentifier] is absent on some records. *)
Record AttendanceRecord := mkRecord {
  rtype : RecordType;
  timestamp : Z;
  pcIdentifier : option string
}.

Definition hasType (t : RecordType) (r : AttendanceRecord) : bool :=
  RecordType_eqb (rtype r) t.

(** [arr.sort((a, b) => a.timestamp.toDate() - b.timestamp.toDate())]:
    ascending by instant; [Array.prototype.sort] is stable, so records
    with equal instants keep their order. *)
Fixpoint sortInsert (r : AttendanceRecord) (l : list AttendanceRecord)
  : list AttendanceRecord :=
  match l with
  | [] => [r]
  | x :: l' =>
      if timestamp r <=? timestamp x then r :: x :: l'
      else x :: sortInsert r l'
  end.

Fixpoint sortByTimestamp (l : list AttendanceRecord) : list AttendanceRecord :=
  match l with
  | [] => []
  | r :: l' => sortInsert r (sortByTimestamp l')
  end.

(** Ascending order of instants. *)
Definition tsLe (a b : AttendanceRecord) : Prop := timestamp a <= timestamp b.

(* ------------------------------------------------------------------ *)
(** *** Strings of the form HH:MM *)

Definition digitValue (c : ascii) : option Z :=
  let n := Z.of_nat (nat_of_ascii c) in
  if (48 <=? n) && (n <=? 57) then Some (n - 48) else None.

Fixpoint digitsValue (s : string) (acc : Z) : option Z :=
  match s with
  | EmptyString => Some acc
  | String c s' =>
      match digitValue c with
      | Some d => digitsValue s' (10 * acc + d)
      | None => None
      end
  end.

(** [Number(s)] on the strings a time input delivers: a run of decimal
    digits is its value and the empty string is 0.  [None] stands for NaN;
    the other numeric spellings JavaScript reads (signs, fractions,
    exponents, radix prefixes, surrounding blanks) are outside this
    fragment and are read as NaN too. *)
Definition Number (s : string) : option Z := digitsValue s 0.

(** [s.split(c)]. *)
Fixpoint split (c : ascii) (s : string) : list string :=
  match s with
  | EmptyString => [EmptyString]
  | String a s' =>
      let rest := split c s' in
      if Ascii.eqb a c then EmptyString :: rest
      else match rest with
           | h :: t => String a h :: t
           | [] => [String a EmptyString]
           end
  end.

(** [const [h, m] = s.split(':').map(Number)]; [None] when either of the
    two is missing or NaN, in which case [setHours(h, m, 0, 0)] yields an
    invalid date. *)
Definition parseHM (s : string) : option (Z * Z) :=
  match map Number (split ":"%char s) with
  | Some h :: Some m :: _ => Some (h, m)
  | _ => None
  end.

(** JavaScript truthiness of a string: only the empty string is falsy. *)
Definition truthyString (s : string) : bool :=
  match s with
  | EmptyString => false
  | _ => true
  end.

(* ================================================================== *)
(** ** [js/monthly.js] *)
(* ================================================================== *)

Module Monthly.

Import JSDate.

(** The per-employee settings read by [loadEmployeeData].  A field that
    a caller leaves undefined is [None]. *)
Record EmployeeConfig := mkConfig {
  startTime : option string;
  endTime : option string;
  breakTime : option Z;
  standardWorkTime : option F64.num
}.

(** [DEFAULT_SETTINGS]. *)
Definition DEFAULT_startTime : string := "09:00".
Definition DEFAULT_endTime : string := "18:00".
Definition DEFAULT_breakTime : Z := 60.
Definition DEFAULT_standardWorkTime : F64.num := F64.of_Z 8.

(** [employeeConfig?.field || fallback] for a string field. *)
Definition stringOr (cfg : option EmployeeConfig)
           (field : EmployeeConfig -> option string) (fallback : string)
  : string :=
  match cfg with
  | Some c =>
      match field c with
      | Some s => if truthyString s then s else fallback
      | None => fallback
      end
  | None => fallback
  end.

(** [employeeConfig?.standardWorkTime || DEFAULT_SETTINGS.standardWorkTime]. *)
Definition standardWorkHoursOf (cfg : option EmployeeConfig) : F64.num :=
  match cfg with
  | Some c =>
      match standardWorkTime c with
      | Some x => if F64.truthy x then x else DEFAULT_standardWorkTime
      | None => DEFAULT_standardWorkTime
      end
  | None => DEFAULT_standardWorkTime
  end.

(** The object returned by [calculateDayWorkData]. *)
Record DayWorkData := mkDay {
  workMinutes : Z;
  workHours : F64.num;
  overtimeMinutes : F64.num;
  overtimeHours : F64.num;
  lateMinutes : Z;
  isLate : bool;
  earlyLeaveMinutes : Z;
  isEarlyLeave : bool;
  isHolidayWork : bool
}.

Section LocalZone.

Variable tza : Z.

(** [calculatePeriod(year, month, closingDay = 25)]. *)
Definition calculatePeriod (year month closingDay : Z) : Z * Z :=
  let periodStart := newDate tza year (month - 1) (closingDay + 1) in
  let periodStart := setMonth tza periodStart (getMonth tza periodStart - 1) in
  let periodStart := setHours tza periodStart 0 0 0 0 in
  let periodEnd := newDate tza year (month - 1) closingDay in
  let periodEnd := setHours tza periodEnd 23 59 59 999 in
  (periodStart, periodEnd).

(** [isHoliday(date)]: Sunday (0) or Saturday (6). *)
Definition isHoliday (date : Z) : bool :=
  let day := getDay tza date in
  (day =? 0) || (day =? 6).

(** [new Date(t); d.setHours(h, m, 0, 0)] for the hour and minute read
    from an HH:MM string; [None] is an invalid date: the string does not
    give two numbers, or the time set lies beyond the range of [Date].
    Hours and minutes read from digits are not negative, so for an
    instant [t] that a [Date] can hold and a result within that range
    the products and sums of [setHours] are whole numbers that binary64
    holds exactly. *)
Definition atTimeOfDay (t : Z) (hm : string) : option Z :=
  match parseHM hm with
  | Some (h, m) => TimeClip (setHours tza t h m 0 0)
  | None => None
  end.

(** [calculateDayWorkData(dayRecords, employeeConfig = null, date = null)]. *)
Definition calculateDayWorkData (dayRecords : list AttendanceRecord)
           (employeeConfig : option EmployeeConfig) (date : option Z)
  : option DayWorkData :=
  match find (hasType clock_in) dayRecords with
  | None => None
  | Some clockIn =>
      match find (hasType clock_out) dayRecords with
      | None => None
      | Some clockOut =>
          let clockInTime := timestamp clockIn in
          let clockOutTime := timestamp clockOut in
          let totalMs := clockOutTime - clockInTime in
          let workMinutes := totalMs / (1000 * 60) in
          let workHours := F64.div (F64.of_Z workMinutes) (F64.of_Z 60) in
          let standardWorkHours := standardWorkHoursOf employeeConfig in
          let overtimeHours := F64.max0 (F64.sub workHours standardWorkHours) in
          let overtimeMinutes := F64.floor (F64.mul overtimeHours (F64.of_Z 60)) in
          let startTime := stringOr employeeConfig startTime DEFAULT_startTime in
          let lateMinutes :=
            match atTimeOfDay clockInTime startTime with
            | Some standardStart =>
                if standardStart <? clockInTime
                then (clockInTime - standardStart) / (1000 * 60)
                else 0
            | None => 0
            end in
          let isLate := 0 <? lateMinutes in
          let endTime := stringOr employeeConfig endTime DEFAULT_endTime in
          let earlyLeaveMinutes :=
            match atTimeOfDay clockOutTime endTime with
            | Some standardEnd =>
                if clockOutTime <? standardEnd
                then (standardEnd - clockOutTime) / (1000 * 60)
                else 0
            | None => 0
            end in
          let isEarlyLeave := 0 <? earlyLeaveMinutes in
          let workDate := match date with Some d => d | None => clockInTime end in
          let isHolidayWork := isHoliday workDate in
          Some (mkDay workMinutes workHours overtimeMinutes overtimeHours
                      lateMinutes isLate earlyLeaveMinutes isEarlyLeave
                      isHolidayWork)
      end
  end.

(* -------------------------------------------------------------- *)
(** *** The per-employee loop of [calculateMonthlySummary] *)

(** The three numbers of a [toLocaleDateString('ja-JP')] key such as
    2025/1/6, which the loop reads back with [split('/').map(Number)]. *)
Definition DateKey : Type := Z * Z * Z.

Definition DateKey_eqb (a b : DateKey) : bool :=
  let '(y1, m1, d1) := a in
  let '(y2, m2, d2) := b in
  (y1 =? y2) && (m1 =? m2) && (d1 =? d2).

Definition dateKeyOf (r : AttendanceRecord) : DateKey :=
  let t := timestamp r in
  (getFullYear tza t, getMonth tza t + 1, getDate tza t).

(** [dayRecordsMap]: an object used as a map, enumerated by
    [Object.entries] in the order the keys were first inserted. *)
Definition DayRecordsMap : Type := list (DateKey * list AttendanceRecord).

(** [if (!map[key]) map[key] = []; map[key].push(record)]. *)
Fixpoint pushRecord (key : DateKey) (r : AttendanceRecord)
         (m : DayRecordsMap) : DayRecordsMap :=
  match m with
  | [] => [(key, [r])]
  | (k, rs) :: m' =>
      if DateKey_eqb k key then (k, rs ++ [r]) :: m'
      else (k, rs) :: pushRecord key r m'
  end.

(** [userData.records.forEach(record => ...)]: grouping by local date. *)
Definition groupByDate (records : list AttendanceRecord) : DayRecordsMap :=
  fold_left (fun m r => pushRecord (dateKeyOf r) r m) records [].

(** The accumulators of the loop over the days of one employee. *)
Record Summary := mkSummary {
  workingDays : Z;
  totalWorkMinutes : Z;
  totalOvertimeMinutes : F64.num;
  latenessCount : Z;
  totalLatenessMinutes : Z;
  earlyLeaveCount : Z;
  totalEarlyLeaveMinutes : Z;
  holidayWorkDays : Z;
  holidayWorkMinutes : Z;
  paidLeaveDays : Z;
  absenceDays : Z;
  usedPCs : list string
}.

Definition emptySummary : Summary :=
  mkSummary 0 0 F64.zero 0 0 0 0 0 0 0 0 [].

(** [paidLeaveDays++]. *)
Definition countPaidLeave (s : Summary) : Summary :=
  mkSummary (workingDays s) (totalWorkMinutes s) (totalOvertimeMinutes s)
            (latenessCount s) (totalLatenessMinutes s)
            (earlyLeaveCount s) (totalEarlyLeaveMinutes s)
            (holidayWorkDays s) (holidayWorkMinutes s)
            (paidLeaveDays s + 1) (absenceDays s) (usedPCs s).

(** [absenceDays++]. *)
Definition countAbsence (s : Summary) : Summary :=
  mkSummary (workingDays s) (totalWorkMinutes s) (totalOvertimeMinutes s)
            (latenessCount s) (totalLatenessMinutes s)
            (earlyLeaveCount s) (totalEarlyLeaveMinutes s)
            (holidayWorkDays s) (holidayWorkMinutes s)
            (paidLeaveDays s) (absenceDays s + 1) (usedPCs s).

(** The body of [if (dayData) { ... }]. *)
Definition countWorkDay (d : DayWorkData) (s : Summary) : Summary :=
  mkSummary (workingDays s + 1)
            (totalWorkMinutes s + workMinutes d)
            (F64.add (totalOvertimeMinutes s) (overtimeMinutes d))
            (if isLate d then latenessCount s + 1 else latenessCount s)
            (if isLate d then totalLatenessMinutes s + lateMinutes d
             else totalLatenessMinutes s)
            (if isEarlyLeave d then earlyLeaveCount s + 1
             else earlyLeaveCount s)
            (if isEarlyLeave d
             then totalEarlyLeaveMinutes s + earlyLeaveMinutes d
             else totalEarlyLeaveMinutes s)
            (if isHolidayWork d then holidayWorkDays s + 1
             else holidayWorkDays s)
            (if isHolidayWork d then holidayWorkMinutes s + workMinutes d
             else holidayWorkMinutes s)
            (paidLeaveDays s) (absenceDays s) (usedPCs s).

(** [usedPCs.add(id)] on a [Set]: insertion order, no duplicates. *)
Definition setAdd (id : string) (pcs : list string) : list string :=
  if existsb (String.eqb id) pcs then pcs else pcs ++ [id].

(** [dayRecords.forEach(r => { if (r.pcIdentifier) usedPCs.add(...) })]. *)
Definition collectPCs (dayRecords : list AttendanceRecord) (s : Summary)
  : Summary :=
  let pcs :=
    fold_left (fun acc r =>
                 match pcIdentifier r with
                 | Some id => if truthyString id then setAdd id acc else acc
                 | None => acc
                 end) dayRecords (usedPCs s) in
  mkSummary (workingDays s) (totalWorkMinutes s) (totalOvertimeMinutes s)
            (latenessCount s) (totalLatenessMinutes s)
            (earlyLeaveCount s) (totalEarlyLeaveMinutes s)
            (holidayWorkDays s) (holidayWorkMinutes s)
            (paidLeaveDays s) (absenceDays s) pcs.

(** One iteration of [for (const [dateKey, dayRecords] of
    Object.entries(dayRecordsMap))].  [sort] works in place, so the
    iteration also returns the array as it leaves it in the map. *)
Definition dayStep (employeeConfig : EmployeeConfig)
           (entry : DateKey * list AttendanceRecord) (s : Summary)
  : Summary * (DateKey * list AttendanceRecord) :=
  let '(dateKey, dayRecords) := entry in
  let '(year, month, day) := dateKey in
  let workDate := newDate tza year (month - 1) day in
  if existsb (hasType paid_leave) dayRecords then
    (countPaidLeave s, entry)
  else if existsb (hasType absence) dayRecords then
    (countAbsence s, entry)
  else
    let sorted := sortByTimestamp dayRecords in
    let s1 :=
      match calculateDayWorkData sorted (Some employeeConfig) (Some workDate) with
      | Some dayData => countWorkDay dayData s
      | None => s
      end in
    (collectPCs sorted s1, (dateKey, sorted)).

(** The whole loop, threading the accumulators and the map. *)
Fixpoint summarizeDays (employeeConfig : EmployeeConfig)
         (m : DayRecordsMap) (s : Summary) : Summary * DayRecordsMap :=
  match m with
  | [] => (s, [])
  | entry :: m' =>
      let '(s1, entry1) := dayStep employeeConfig entry s in
      let '(s2, m1) := summarizeDays employeeConfig m' s1 in
      (s2, entry1 :: m1)
  end.

(** The accumulators for one employee's records of the period. *)
Definition summarizeEmployee (employeeConfig : EmployeeConfig)
           (records : list AttendanceRecord) : Summary :=
  fst (summarizeDays employeeConfig (groupByDate records) emptySummary).

(* -------------------------------------------------------------- *)
(** *** [calculateWorkTime(records, userId, date)] (daily view) *)

(** The nested loops that subtract the time spent out: every
    [break_start] is matched with the first [break_end] after it. *)
Fixpoint breakMs (dayRecords : list AttendanceRecord) : Z :=
  match dayRecords with
  | [] => 0
  | r :: rest =>
      (if hasType break_start r then
         match find (hasType break_end) rest with
         | Some e => timestamp e - timestamp r
         | None => 0
         end
       else 0) + breakMs rest
  end.

End LocalZone.

End Monthly.

(* ================================================================== *)
(** ** [js/timecard-history.js] *)
(* ================================================================== *)

Module History.

(** The object returned by [calculateWorkTime]. *)
Record WorkTime := mkWorkTime {
  hours : Z;
  minutes : Z;
  isFinished : bool;
  isOnBreak : bool
}.

(** The pairs pushed onto [breakPairs] by the nested loops: for each
    index [i] holding a [break_start], the first [j > i] holding a
    [break_end], if there is one. *)
Fixpoint breakPairs (records : list AttendanceRecord) : list (Z * Z) :=
  match records with
  | [] => []
  | r :: rest =>
      (if hasType break_start r then
         match find (hasType break_end) rest with
         | Some e => [(timestamp r, timestamp e)]
         | None => []
         end
       else []) ++ breakPairs rest
  end.

(** [breakPairs.forEach(pair => { breakMs += pair.end - pair.start })]. *)
Definition breakMsOf (pairs : list (Z * Z)) : Z :=
  fold_left (fun acc p => acc + (snd p - fst p)) pairs 0.

(** [records[records.length - 1]]. *)
Definition lastRecord (records : list AttendanceRecord)
  : option AttendanceRecord :=
  match rev records with
  | r :: _ => Some r
  | [] => None
  end.

(** [calculateWorkTime(records)]; [now] is the instant [new Date()]
    yields when the function is called. *)
Definition calculateWorkTime (now : Z) (records : list AttendanceRecord)
  : option WorkTime :=
  match find (hasType clock_in) records with
  | None => None
  | Some clockIn =>
      let clockOut := find (hasType clock_out) records in
      let startTime := timestamp clockIn in
      let endTime := match clockOut with
                     | Some c => timestamp c
                     | None => now
                     end in
      let totalMs := endTime - startTime in
      let breakMs := breakMsOf (breakPairs records) in
      let workMs := totalMs - breakMs in
      let totalMinutes := workMs / (1000 * 60) in
      let hours := totalMinutes / 60 in
      let minutes := Z.rem totalMinutes 60 in
      Some (mkWorkTime hours minutes
              (match clockOut with Some _ => true | None => false end)
              (match lastRecord records with
               | Some r => hasType break_start r
               | None => false
               end))
  end.

End History.

(* ================================================================== *)
(** ** Reference formulations and sample days *)
(* ================================================================== *)

Module Reference.

Import JSDate.

(** The closing-day window as the specification words it: from 00:00:00
    on day [closingDay + 1] of the previous month to 23:59:59.999 on day
    [closingDay] of the given month, days beyond the end of a month
    rolling over into the next one. *)
Definition closingWindow (tza year month closingDay : Z) : Z * Z :=
  (newDate7 tza year (month - 2) (closingDay + 1) 0 0 0 0,
   newDate7 tza year (month - 1) closingDay 23 59 59 999).

(** Break pairing by stack discipline, as the specification words it:
    a [break_start] is pushed, a [break_end] closes the most recently
    opened start that is still open, and only that one. *)
Fixpoint stackPairs (open : list Z) (records : list AttendanceRecord)
  : list (Z * Z) :=
  match records with
  | [] => []
  | r :: rest =>
      match rtype r with
      | break_start => stackPairs (timestamp r :: open) rest
      | break_end =>
          match open with
          | s :: open' => (s, timestamp r) :: stackPairs open' rest
          | [] => stackPairs [] rest
          end
      | _ => stackPairs open rest
      end
  end.

(** Break pairing as the nested loops perform it, told in one pass: the
    starts seen since the last [break_end] wait in [pending], oldest
    first, and a [break_end] closes every one of them. *)
Fixpoint flushPairs (pending : list Z) (records : list AttendanceRecord)
  : list (Z * Z) :=
  match records with
  | [] => []
  | r :: rest =>
      match rtype r with
      | break_start => flushPairs (pending ++ [timestamp r]) rest
      | break_end =>
          map (fun s => (s, timestamp r)) pending ++ flushPairs [] rest
      | _ => flushPairs pending rest
      end
  end.

(** No [break_start] while a break is open ([open] tells whether one is
    open on entry). *)
Fixpoint noNestedBreak (open : bool) (records : list AttendanceRecord)
  : bool :=
  match records with
  | [] => true
  | r :: rest =>
      match rtype r with
      | break_start => negb open && noNestedBreak true rest
      | break_end => noNestedBreak false rest
      | _ => noNestedBreak open rest
      end
  end.

(** The overtime figure as the specification words it:
    [max(0, workMinutes - standardWorkHours * 60)]. *)
Definition overtimeFormula (workMinutes standardWorkHours : Z) : Z :=
  Z.max 0 (workMinutes - standardWorkHours * 60).

(** The work accumulators of [s'] are those of [s]: the day counted
    neither as a working day nor towards any total of minutes. *)
Definition noWorkCounted (s s' : Monthly.Summary) : Prop :=
  Monthly.workingDays s' = Monthly.workingDays s /\
  Monthly.totalWorkMinutes s' = Monthly.totalWorkMinutes s /\
  Monthly.totalOvertimeMinutes s' = Monthly.totalOvertimeMinutes s /\
  Monthly.holidayWorkDays s' = Monthly.holidayWorkDays s /\
  Monthly.holidayWorkMinutes s' = Monthly.holidayWorkMinutes s.

(** The overtime figure as [calculateDayWorkData] reaches it from
    [workMinutes]: through hours, in binary64, rounded down at the end. *)
Definition overtimeThroughHours (workMinutes : Z) (standardWorkHours : F64.num)
  : F64.num :=
  let workHours := F64.div (F64.of_Z workMinutes) (F64.of_Z 60) in
  let overtimeHours := F64.max0 (F64.sub workHours standardWorkHours) in
  F64.floor (F64.mul overtimeHours (F64.of_Z 60)).

(** Whether, for [w] worked minutes against 8 standard hours, the
    overtime figure is the specification's or one minute less. *)
Definition overtimeWithinOne (w : Z) : bool :=
  let formula := overtimeFormula w 8 in
  let got := F64.floorZ (overtimeThroughHours w (F64.of_Z 8)) in
  (got =? formula) || (got =? formula - 1).

(** The minutes 0, 1, ..., 1440 of a day. *)
Definition minutesOfDay : list Z := map Z.of_nat (seq 0 1441).

(** Whether binary64 division by 60000 followed by [Math.floor] yields
    [k] at both ends of minute [k]: on the integer division it stands
    for in this development. *)
Definition minuteBoundsExact (k : Z) : bool :=
  (F64.floorZ (F64.div (F64.of_Z (60000 * k)) (F64.of_Z 60000)) =? k) &&
  (F64.floorZ (F64.div (F64.of_Z (60000 * k + 59999)) (F64.of_Z 60000)) =? k).

End Reference.

Module Samples.

Import JSDate.

(** Japan Standard Time, UTC+9. *)
Definition jst : Z := 9 * msPerHour.

(** Eastern Standard Time, UTC-5. *)
Definition est : Z := -5 * msPerHour.

(** A punch of kind [k] at [h]:[mi] local time on Monday 2025-01-06. *)
Definition punch (k : RecordType) (h mi : Z) : AttendanceRecord :=
  mkRecord k (newDate7 jst 2025 0 6 h mi 0 0) None.

(** The 09:00-18:00 schedule with 8 standard hours. *)
Definition nineToSix : Monthly.EmployeeConfig :=
  Monthly.mkConfig (Some "09:00"%string) (Some "18:00"%string) (Some 60)
                   (Some (F64.of_Z 8)).

Definition monday : Monthly.DateKey := (2025, 1, 6).

(** In 09:00, out 12:00, back 13:00, out 18:00. *)
Definition dayWithBreak : list AttendanceRecord :=
  [punch clock_in 9 0; punch break_start 12 0;
   punch break_end 13 0; punch clock_out 18 0].

(** In 09:00, out 17:02: 482 minutes. *)
Definition dayOf482Minutes : list AttendanceRecord :=
  [punch clock_in 9 0; punch clock_out 17 2].

(** Two starts before one end. *)
Definition interleavedBreaks : list AttendanceRecord :=
  [punch break_start 10 0; punch break_start 11 0; punch break_end 12 0].

(** A break that is never closed, followed by the clock-out. *)
Definition dayWithOpenBreak : list AttendanceRecord :=
  [punch clock_in 9 0; punch break_start 12 0; punch clock_out 18 0].

(** The employee is out at the moment of the query. *)
Definition dayEndingOnBreak : list AttendanceRecord :=
  [punch clock_in 9 0; punch break_start 12 0].

Definition dayWithoutClockOut : list AttendanceRecord :=
  [punch clock_in 9 0].

(** The clock-out is stored before the clock-in. *)
Definition unorderedDay : list AttendanceRecord :=
  [punch clock_out 18 0; punch clock_in 9 0].

Definition paidLeaveWithClocks : list AttendanceRecord :=
  [punch clock_in 9 0; punch paid_leave 9 30; punch clock_out 18 0].

Definition absenceDay : list AttendanceRecord :=
  [punch absence 9 0].

Definition leaveAndAbsence : list AttendanceRecord :=
  [punch absence 8 0; punch paid_leave 9 0].

(** A punch at [h]:[mi] on day [day] of January 2025, from one PC. *)
Definition punchOn (day : Z) (k : RecordType) (h mi : Z) : AttendanceRecord :=
  mkRecord k (newDate7 jst 2025 0 day h mi 0 0) (Some "PC-1"%string).

(** A full Monday, a paid leave, a day without clock-out, a late and
    short Thursday, and two hours on Saturday. *)
Definition januaryWeek : list AttendanceRecord :=
  [punchOn 6 clock_in 9 0; punchOn 6 clock_out 18 0;
   punchOn 7 paid_leave 9 0;
   punchOn 8 clock_in 9 20;
   punchOn 9 clock_in 9 20; punchOn 9 clock_out 17 0;
   punchOn 11 clock_in 10 0; punchOn 11 clock_out 12 0].

End Samples.

(* ================================================================== *)
(** ** More of the Date object *)
(* ================================================================== *)

Module DateSetters.

Import JSDate.

(** [d.setDate(dt)]: the month and the time of day are kept; a day the
    month does not have rolls over. *)
Definition setDate (tza t dt : Z) : Z :=
  let lt := LocalTime tza t in
  UTC tza (MakeDate (MakeDay (YearFromTime lt) (MonthFromTime lt) dt)
                    (TimeWithinDay lt)).

(** [d.setFullYear(y)]. *)
Definition setFullYear (tza t y : Z) : Z :=
  let lt := LocalTime tza t in
  UTC tza (MakeDate (MakeDay y (MonthFromTime lt) (DateFromTime lt))
                    (TimeWithinDay lt)).

(** Whether the date read off day [doe] of an era is a date of the
    calendar and leads back to [doe]. *)
Definition civilOk (doe : Z) : bool :=
  match civilOfDoe doe with
  | (yoe, m, d) =>
      (0 <=? yoe) && (yoe <? 400) && (1 <=? m) && (m <=? 12) &&
      (1 <=? d) && (d <=? daysInMonth (yoe + janFeb m) m) &&
      (doeOf yoe m d =? doe)
  end.

(** The same for the thousand days from [1000 * a] on, as far as they
    belong to the era. *)
Definition civilOkThousand (a : Z) : bool :=
  forallb (fun b => (146097 <=? 1000 * a + b) || civilOk (1000 * a + b))
          (zrange 0 1000).

End DateSetters.

(* ================================================================== *)
(** ** Date strings *)
(* ================================================================== *)

Module DateStrings.

Import JSDate.

(** [String(n)] for an integer [n]. *)
Definition StringOfNumber (n : Z) : string :=
  DecimalString.NilZero.string_of_int (Z.to_int n).

(** [s.padStart(2, '0')]. *)
Definition padStart2 (s : string) : string :=
  match s with
  | EmptyString => "00"
  | String c EmptyString => String "0" s
  | _ => s
  end.

(** [`${year}-${month}-${day}`] with month and day padded to two
    characters, as [formatDateForInput] and [changeDate] build it. *)
Definition formatYMD (year month day : Z) : string :=
  StringOfNumber year ++ "-" ++ padStart2 (StringOfNumber month) ++ "-"
    ++ padStart2 (StringOfNumber day).



(** Whether [s] is [n] decimal digits. *)
Definition isDigits (n : nat) (s : string) : bool :=
  (String.length s =? n)%nat &&
  match digitsValue s 0 with Some _ => true | None => false end.

(** [new Date(s)] for a date-only string YYYY-MM-DD, which ECMAScript
    reads as midnight UTC of that date; the month is 01..12 and the day
    01..31.  [None] is an invalid date.  The other spellings [Date]
    accepts are outside this fragment and read as invalid too. *)
Definition parseDateOnly (s : string) : option Z :=
  match split "-"%char s with
  | [ys; ms; ds] =>
      if isDigits 4 ys && isDigits 2 ms && isDigits 2 ds then
        match Number ys, Number ms, Number ds with
        | Some y, Some m, Some d =>
            if (1 <=? m) && (m <=? 12) && (1 <=? d) && (d <=? 31)
            then Some (MakeDate (MakeDay y (m - 1) d) 0)
            else None
        | _, _, _ => None
        end
      else None
  | _ => None
  end.

End DateStrings.

(* ================================================================== *)
(** ** [js/monthly.js]: periods by date, the day view *)
(* ================================================================== *)

Module MonthlyViews.

Import JSDate DateSetters DateStrings.

(** What the custom-period branch of [calculateMonthlySummary] does with
    the two date inputs. *)
Inductive PeriodChoice :=
| NeedBothDates
| StartAfterEnd
| Period (periodStart periodEnd : option Z).

(** [new Date(s); d.setHours(h, mi, sec, ms)]; an invalid date stays
    invalid. *)
Definition dateAt (tza : Z) (s : string) (h mi sec ms : Z) : option Z :=
  match parseDateOnly s with
  | Some t => Some (setHours tza t h mi sec ms)
  | None => None
  end.

(** The branch [periodType !== 'monthly'] of [calculateMonthlySummary]. *)
Definition customPeriod (tza : Z) (startDate endDate : string) : PeriodChoice :=
  if negb (truthyString startDate) || negb (truthyString endDate) then
    NeedBothDates
  else
    let periodStart := dateAt tza startDate 0 0 0 0 in
    let periodEnd := dateAt tza endDate 23 59 59 999 in
    match periodStart, periodEnd with
    | Some a, Some b => if b <? a then StartAfterEnd
                        else Period periodStart periodEnd
    | _, _ => Period periodStart periodEnd
    end.

(** The one-day range built from a date string: [new Date(s)] twice,
    with [setHours(0, 0, 0, 0)] and [setHours(23, 59, 59, 999)]. *)
Definition dayRange (tza : Z) (displayDate : string) : option Z * option Z :=
  (dateAt tza displayDate 0 0 0 0, dateAt tza displayDate 23 59 59 999).

(** The range that [applyFilters] queries; [None] when the date input is
    empty and nothing is queried. *)
Definition applyFiltersRange (tza : Z) (displayDate : string)
  : option (option Z * option Z) :=
  if negb (truthyString displayDate) then None
  else Some (dayRange tza displayDate).

(** The range that [loadRecords(db, preserveFilters)] queries: that of
    the date string kept in [currentFilters] when the filters are to be
    preserved and a date is kept, and otherwise that of [today], the
    local midnight before the current instant. *)
Definition loadRecordsRange (tza now : Z) (preserveFilters : bool)
           (keptDisplayDate : string) : option Z * option Z :=
  if preserveFilters && truthyString keptDisplayDate then
    dayRange tza keptDisplayDate
  else
    let today := setHours tza now 0 0 0 0 in
    (Some (setHours tza today 0 0 0 0), Some (setHours tza today 23 59 59 999)).

(** [today] and [tomorrow] of [updateStats]. *)
Definition todayAndTomorrow (tza now : Z) : Z * Z :=
  let today := setHours tza now 0 0 0 0 in
  let tomorrow := setDate tza today (getDate tza today + 1) in
  (today, tomorrow).

(** The records [updateStats] keeps as today's. *)
Definition todayRecords (tza now : Z) (allRecords : list AttendanceRecord)
  : list AttendanceRecord :=
  let '(today, tomorrow) := todayAndTomorrow tza now in
  filter (fun record =>
            (today <=? timestamp record) && (timestamp record <? tomorrow))
         allRecords.


End MonthlyViews.

(* ================================================================== *)
(** ** [js/timecard-history.js]: the reload at midnight *)
(* ================================================================== *)

Module TimeCard.

Import JSDate.

Section HostZone.

(** The time zone of the host as ECMAScript reads it: the offset of
    local time from UTC in milliseconds at the instant [t]
    ([LocalTZA(t, true)]), and for the local time value [t]
    ([LocalTZA(t, false)]).  The offset may change with the date, as it
    does where the clocks are put forward and back. *)
Variable offsetAtUTC : Z -> Z.
Variable offsetAtLocal : Z -> Z.

Definition LocalTimeIn (t : Z) : Z := t + offsetAtUTC t.
Definition UTCIn (t : Z) : Z := t - offsetAtLocal t.

(** [d.getDate()], [d.setDate(dt)] and [d.setHours(h, m, s, ms)]. *)
Definition getDateIn (t : Z) : Z := DateFromTime (LocalTimeIn t).

Definition setDateIn (t dt : Z) : Z :=
  let lt := LocalTimeIn t in
  UTCIn (MakeDate (MakeDay (YearFromTime lt) (MonthFromTime lt) dt)
                  (TimeWithinDay lt)).

Definition setHoursIn (t h mi s ms : Z) : Z :=
  UTCIn (MakeDate (Day (LocalTimeIn t)) (MakeTime h mi s ms)).

(** [msUntilMidnight] of [setupMidnightReload]; [now] is the instant
    that [new Date()] yields. *)
Definition msUntilMidnight (now : Z) : Z :=
  let tomorrow := setDateIn now (getDateIn now + 1) in
  let tomorrow := setHoursIn tomorrow 0 0 0 0 in
  tomorrow - now.

End HostZone.

(** New York in the autumn of 2025: UTC-4 until the clocks go back on
    2 November at 02:00 local time (06:00 UTC), UTC-5 from then on.  The
    local hour from 01:00 to 02:00 comes twice and is read with the
    offset from before the change. *)
Definition newYorkAtUTC (t : Z) : Z :=
  if t <? MakeDate (days_from_civil 2025 11 2) (6 * msPerHour)
  then -4 * msPerHour else -5 * msPerHour.

Definition newYorkAtLocal (t : Z) : Z :=
  if t <? MakeDate (days_from_civil 2025 11 2) (2 * msPerHour)
  then -4 * msPerHour else -5 * msPerHour.

End TimeCard.

(* ================================================================== *)
(** ** Checks on date strings *)
(* ================================================================== *)

Module DateStringChecks.

Import DateStrings.

Fixpoint containsChar (c : ascii) (s : string) : bool :=
  match s with
  | EmptyString => false
  | String a s' => Ascii.eqb a c || containsChar c s'
  end.

(** Whether [s] is [n] digits without a hyphen that read back as [v]. *)
Definition readsBack (n : nat) (s : string) (v : Z) : bool :=
  negb (containsChar "-" s) && isDigits n s &&
  match Number s with Some w => w =? v | None => false end.

Definition yearReadsBack (y : Z) : bool := readsBack 4 (StringOfNumber y) y.

Definition twoDigitsReadBack (n : Z) : bool :=
  readsBack 2 (padStart2 (StringOfNumber n)) n.

(** Local midnight at the start of the date [y]-[m]-[d]. *)
Definition localMidnight (tza y m d : Z) : Z :=
  JSDate.UTC tza (JSDate.MakeDate (JSDate.days_from_civil y m d) 0).

End DateStringChecks.

(* ================================================================== *)
(** ** What the monthly loop keeps true *)
(* ================================================================== *)

Module LoopInvariants.

Import Monthly.

(** The counters after [n] days: no day is counted twice, and the counts
    of late, early and holiday days are counts of working days, each
    late or early day bringing at least one minute. *)
Definition countersOk (n : Z) (s : Summary) : Prop :=
  0 <= workingDays s /\ 0 <= paidLeaveDays s /\ 0 <= absenceDays s /\
  workingDays s + paidLeaveDays s + absenceDays s <= n /\
  0 <= latenessCount s <= workingDays s /\
  0 <= earlyLeaveCount s <= workingDays s /\
  0 <= holidayWorkDays s <= workingDays s /\
  latenessCount s <= totalLatenessMinutes s /\
  earlyLeaveCount s <= totalEarlyLeaveMinutes s.

(** The PC identifiers [collectPCs] adds for one day. *)
Definition namesPC (id : string) (r : AttendanceRecord) : Prop :=
  pcIdentifier r = Some id /\ id <> EmptyString.

(** Whether day [entry] adds [id]: it is named on a record of a day
    without paid leave or absence. *)
Definition dayNamesPC (id : string)
           (entry : DateKey * list AttendanceRecord) : Prop :=
  existsb (hasType paid_leave) (snd entry) = false /\
  existsb (hasType absence) (snd entry) = false /\
  exists r, In r (snd entry) /\ namesPC id r.

(** The records of [records] filed under [key], in their order. *)
Definition recordsOfDay (tza : Z) (key : DateKey)
           (records : list AttendanceRecord) : list AttendanceRecord :=
  filter (fun r => DateKey_eqb key (dateKeyOf tza r)) records.

(** The state of the map after the records [seen]: one entry per date
    met, holding the records of that date in their order. *)
Definition grouped (tza : Z) (seen : list AttendanceRecord)
           (m : DayRecordsMap) : Prop :=
  NoDup (map fst m) /\
  (forall key rs, In (key, rs) m ->
                  rs <> [] /\ rs = recordsOfDay tza key seen) /\
  (forall r, In r seen -> In (dateKeyOf tza r) (map fst m)).

End LoopInvariants.

Module CalendarChecks.

Import JSDate.

(** Whether March of the year after [r] starts at least 28 days after
    the February before it (years counted from March within an era). *)
Definition febMarOk (r : Z) : bool :=
  doeOf r 2 1 + 28 <=? doeOf (r + 1) 3 1.

End CalendarChecks.

(* ================================================================== *)
(** ** [js/utils.js] *)
(* ================================================================== *)

Module Utils.

(** The object returned by [calculateWorkTime] of utils.js. *)
Record WorkTime := mkWorkTime {
  hours : Z;
  minutes : Z;
  isFinished : bool
}.

(** [calculateWorkTime(records)] of utils.js, which knows no breaks;
    [now] is the instant [new Date()] yields. *)
Definition calculateWorkTime (now : Z) (records : list AttendanceRecord)
  : option WorkTime :=
  match find (hasType clock_in) records with
  | None => None
  | Some clockIn =>
      let clockOut := find (hasType clock_out) records in
      let startTime := timestamp clockIn in
      let endTime := match clockOut with
                     | Some c => timestamp c
                     | None => now
                     end in
      let totalMs := endTime - startTime in
      let totalMinutes := totalMs / (1000 * 60) in
      let hours := totalMinutes / 60 in
      let minutes := Z.rem totalMinutes 60 in
      Some (mkWorkTime hours minutes
              (match clockOut with Some _ => true | None => false end))
  end.







End Utils.

(* ================================================================== *)
(** ** [js/timecard-history.js]: the range of the history *)
(* ================================================================== *)

Module HistoryRange.

Import Utils.


(** Descending order of instants, the order of the history query. *)
Definition tsGe (a b : AttendanceRecord) : Prop := timestamp b <= timestamp a.

End HistoryRange.

(* ================================================================== *)
(** ** The recording module of the time card *)
(* ================================================================== *)

Module Recording.

(** The [disabled] flags of the four buttons. *)
Record Buttons := mkButtons {
  clockInDisabled : bool;
  clockOutDisabled : bool;
  breakStartDisabled : bool;
  breakEndDisabled : bool
}.

(** What [updateButtonStates] writes into the message area. *)
Inductive DayMessage := NoDayMessage | DayFinished | ClockedIn.

(** [updateButtonStates(records)]. *)
Definition updateButtonStates (records : list AttendanceRecord)
  : Buttons * DayMessage :=
  match History.lastRecord records with
  | None => (mkButtons false true true true, NoDayMessage)
  | Some lastRecord =>
      let hasClockIn := existsb (hasType clock_in) records in
      let hasClockOut := existsb (hasType clock_out) records in
      if hasClockOut then (mkButtons true true true true, DayFinished)
      else if hasClockIn then
        (match rtype lastRecord with
         | clock_in => mkButtons true false false true
         | break_start => mkButtons true false true false
         | break_end => mkButtons true false false true
         | _ => mkButtons true false true true
         end, ClockedIn)
      else (mkButtons false true true true, NoDayMessage)
  end.

(** Whether the button that records a punch of kind [t] can be pressed;
    paid leave and absence have no button. *)
Definition canPress (t : RecordType) (b : Buttons) : bool :=
  match t with
  | clock_in => negb (clockInDisabled b)
  | clock_out => negb (clockOutDisabled b)
  | break_start => negb (breakStartDisabled b)
  | break_end => negb (breakEndDisabled b)
  | _ => false
  end.

(** The days that the buttons alone can record: each punch is added at
    the end of the day's records by a button that was enabled. *)
Inductive recordable : list AttendanceRecord -> Prop :=
| recordable_nil : recordable []
| recordable_press rs r :
    recordable rs ->
    canPress (rtype r) (fst (updateButtonStates rs)) = true ->
    recordable (rs ++ [r]).

(** The phases of a day at the time card. *)
Inductive Phase := NotYetIn | AtWork | OutOnBreak | Left.

Definition nextPhase (p : Phase) (t : RecordType) : option Phase :=
  match p, t with
  | NotYetIn, clock_in => Some AtWork
  | AtWork, break_start => Some OutOnBreak
  | AtWork, clock_out => Some Left
  | OutOnBreak, break_end => Some AtWork
  | OutOnBreak, clock_out => Some Left
  | _, _ => None
  end.

(** The phase reached from [p] by the punches of a day, if each of them
    is a step of the phases. *)
Fixpoint phaseAfter (p : Phase) (records : list AttendanceRecord)
  : option Phase :=
  match records with
  | [] => Some p
  | r :: rest =>
      match nextPhase p (rtype r) with
      | Some q => phaseAfter q rest
      | None => None
      end
  end.

Definition isOut (p : Phase) : bool :=
  match p with OutOnBreak => true | _ => false end.

End Recording.

(* ================================================================== *)
(** ** Manual entries *)
(* ================================================================== *)

Module ManualEntry.

Import JSDate DateSetters DateStrings.

(** The result of [validateManualEntry]: valid, or one of its six
    messages. *)
Inductive Verdict :=
| Valid
| SelectEmployee
| EnterDate
| EnterTime
| EnterValidDate
| NoFutureDate
| NotOlderThanOneYear.

(** [validateManualEntry(userId, date, time = null)]; [now1] and [now2]
    are the instants that its two [new Date()] yield. *)
Definition validateManualEntry (tza now1 now2 : Z) (userId date : string)
           (time : option string) : Verdict :=
  if negb (truthyString userId) then SelectEmployee
  else if negb (truthyString date) then EnterDate
  else if match time with
          | Some t => negb (truthyString t)
          | None => false
          end then EnterTime
  else
    match parseDateOnly date with
    | None => EnterValidDate
    | Some inputDate =>
        let tomorrow := setDate tza now1 (getDate tza now1 + 1) in
        let tomorrow := setHours tza tomorrow 23 59 59 999 in
        if tomorrow <? inputDate then NoFutureDate
        else
          let oneYearAgo :=
            setFullYear tza now2 (getFullYear tza now2 - 1) in
          if inputDate <? oneYearAgo then NotOlderThanOneYear
          else Valid
    end.

End ManualEntry.

(* ================================================================== *)
(** ** [js/monthly.js]: the table of the day *)
(* ================================================================== *)

Module AttendanceTable.

Import Monthly.

(** An entry of [recordsMap]: the clock-in and the clock-out kept. *)
Definition Clocks : Type :=
  (option AttendanceRecord * option AttendanceRecord)%type.

(** One turn of the [forEach] of [displayRecords] on a record of the
    entry's key. *)
Definition keepClocks (entry : Clocks) (record : AttendanceRecord) : Clocks :=
  if hasType clock_in record then (Some record, snd entry)
  else if hasType clock_out record then (fst entry, Some record)
  else entry.

(** [recordsMap[key]] after the [forEach], for the records of one
    employee and the key of one date; a key never met reads as no
    clock-in and no clock-out. *)
Definition recordsMapAt (tza : Z) (key : DateKey)
           (records : list AttendanceRecord) : Clocks :=
  fold_left (fun entry record =>
               if DateKey_eqb key (dateKeyOf tza record)
               then keepClocks entry record
               else entry)
            records (None, None).

(** The duration badge of a row: hours and minutes, or [None] for the
    dash. *)
Definition duration (group : Clocks) : option (Z * Z) :=
  match group with
  | (Some clockIn, Some clockOut) =>
      let totalMs := timestamp clockOut - timestamp clockIn in
      let totalMinutes := totalMs / (1000 * 60) in
      Some (totalMinutes / 60, Z.rem totalMinutes 60)
  | _ => None
  end.

End AttendanceTable.

(* ================================================================== *)
(** ** Sorting a day's records *)
(* ================================================================== *)

Section SortFacts.

Lemma sortInsert_perm r l : Permutation (r :: l) (sortInsert r l).
Proof.
  induction l as [|x l IH]; simpl.
  - apply Permutation_refl.
  - destruct (timestamp r <=? timestamp x).
    + apply Permutation_refl.
    + eapply perm_trans; [apply perm_swap|].
      now apply perm_skip.
Qed.

Lemma sortByTimestamp_perm l : Permutation l (sortByTimestamp l).
Proof.
  induction l as [|r l IH]; simpl.
  - constructor.
  - eapply perm_trans; [apply perm_skip, IH|apply sortInsert_perm].
Qed.

Lemma sortInsert_sorted r l :
  Sorted tsLe l -> Sorted tsLe (sortInsert r l).
Proof.
  induction l as [|x l IH]; simpl; intros Hs.
  - repeat constructor.
  - destruct (timestamp r <=? timestamp x) eqn:E.
    + apply Z.leb_le in E. constructor; [assumption|].
      constructor. exact E.
    + apply Z.leb_gt in E.
      pose proof (Sorted_inv Hs) as [Hl Hhd].
      constructor; [now apply IH|].
      destruct l as [|y l]; simpl.
      * constructor. unfold tsLe. lia.
      * destruct (timestamp r <=? timestamp y).
        -- constructor. unfold tsLe. lia.
        -- constructor. now apply HdRel_inv in Hhd.
Qed.

Lemma sortByTimestamp_sorted l : Sorted tsLe (sortByTimestamp l).
Proof.
  induction l as [|r l IH]; simpl.
  - constructor.
  - now apply sortInsert_sorted.
Qed.

(** Sorting leaves an ascending array as it is. *)
Lemma sortByTimestamp_fixed l : Sorted tsLe l -> sortByTimestamp l = l.
Proof.
  induction l as [|r l IH]; simpl; intros Hs; [reflexivity|].
  pose proof (Sorted_inv Hs) as [Hl Hhd].
  rewrite (IH Hl).
  destruct l as [|x l]; simpl; [reflexivity|].
  apply HdRel_inv in Hhd. unfold tsLe in Hhd.
  apply Z.leb_le in Hhd. now rewrite Hhd.
Qed.

Lemma sortByTimestamp_idem l :
  sortByTimestamp (sortByTimestamp l) = sortByTimestamp l.
Proof. apply sortByTimestamp_fixed, sortByTimestamp_sorted. Qed.

(** The sort is stable: for every instant, the records of that instant
    come out in the order in which they went in. *)
Lemma sortInsert_stable t r l :
  filter (fun x => timestamp x =? t) (sortInsert r l) =
  filter (fun x => timestamp x =? t) (r :: l).
Proof.
  induction l as [|x l IH]; [reflexivity|].
  cbn [sortInsert].
  destruct (timestamp r <=? timestamp x) eqn:E; [reflexivity|].
  apply Z.leb_gt in E. cbn [filter] in *. rewrite IH.
  destruct (timestamp r =? t) eqn:Er, (timestamp x =? t) eqn:Ex;
    try reflexivity.
  apply Z.eqb_eq in Er, Ex. lia.
Qed.

Lemma sortByTimestamp_stable t l :
  filter (fun x => timestamp x =? t) (sortByTimestamp l) =
  filter (fun x => timestamp x =? t) l.
Proof.
  induction l as [|r l IH]; [reflexivity|].
  cbn [sortByTimestamp]. rewrite sortInsert_stable.
  cbn [filter]. now rewrite IH.
Qed.

Lemma existsb_perm {A} (p : A -> bool) l l' :
  Permutation l l' -> existsb p l = existsb p l'.
Proof.
  induction 1; simpl.
  - reflexivity.
  - now rewrite IHPermutation.
  - destruct (p x), (p y); reflexivity.
  - congruence.
Qed.

Lemma find_none_existsb {A} (p : A -> bool) l :
  find p l = None <-> existsb p l = false.
Proof.
  induction l as [|x l IH]; simpl; [tauto|].
  destruct (p x); simpl; [split; discriminate|exact IH].
Qed.

Lemma find_none_perm {A} (p : A -> bool) l l' :
  Permutation l l' -> find p l = None -> find p l' = None.
Proof.
  intros Hp H. apply find_none_existsb.
  rewrite <- (existsb_perm p _ _ Hp). now apply find_none_existsb.
Qed.

Lemma find_some_hasType t l r :
  find (hasType t) l = Some r -> rtype r = t.
Proof.
  intros H. apply find_some in H. destruct H as [_ H].
  unfold hasType in H. destruct (rtype r), t; simpl in H; congruence.
Qed.

Lemma hasType_iff t r : hasType t r = true <-> rtype r = t.
Proof.
  unfold hasType. destruct (rtype r), t; simpl; split; congruence.
Qed.

End SortFacts.

(* ================================================================== *)
(** ** The monthly loop *)
(* ================================================================== *)

Section MonthlyLoop.

Import Monthly Reference.

Variable tza : Z.
Variable cfg : EmployeeConfig.

Lemma calculateDayWorkData_no_clock_in rs c date :
  find (hasType clock_in) rs = None ->
  calculateDayWorkData tza rs c date = None.
Proof. intros H. unfold calculateDayWorkData. now rewrite H. Qed.

Lemma calculateDayWorkData_no_clock_out rs c date :
  find (hasType clock_out) rs = None ->
  calculateDayWorkData tza rs c date = None.
Proof.
  intros H. unfold calculateDayWorkData. rewrite H.
  now destruct (find (hasType clock_in) rs).
Qed.

Lemma calculateDayWorkData_incomplete rs c date :
  find (hasType clock_in) rs = None \/ find (hasType clock_out) rs = None ->
  calculateDayWorkData tza rs c date = None.
Proof.
  intros [H|H];
    [now apply calculateDayWorkData_no_clock_in
    |now apply calculateDayWorkData_no_clock_out].
Qed.

Lemma incomplete_sorted rs :
  find (hasType clock_in) rs = None \/ find (hasType clock_out) rs = None ->
  find (hasType clock_in) (sortByTimestamp rs) = None \/
  find (hasType clock_out) (sortByTimestamp rs) = None.
Proof.
  intros [H|H]; [left|right];
    (eapply find_none_perm; [apply sortByTimestamp_perm|exact H]).
Qed.

Lemma dayStep_paid_leave key rs s :
  existsb (hasType paid_leave) rs = true ->
  dayStep tza cfg (key, rs) s = (countPaidLeave s, (key, rs)).
Proof.
  intros H. unfold dayStep. destruct key as [[y m] d]. now rewrite H.
Qed.

Lemma dayStep_absence key rs s :
  existsb (hasType paid_leave) rs = false ->
  existsb (hasType absence) rs = true ->
  dayStep tza cfg (key, rs) s = (countAbsence s, (key, rs)).
Proof.
  intros H1 H2. unfold dayStep. destruct key as [[y m] d].
  now rewrite H1, H2.
Qed.

Lemma dayStep_clocks key rs s :
  existsb (hasType paid_leave) rs = false ->
  existsb (hasType absence) rs = false ->
  dayStep tza cfg (key, rs) s =
  (let '(year, month, day) := key in
   let sorted := sortByTimestamp rs in
   collectPCs sorted
     match calculateDayWorkData tza sorted (Some cfg)
             (Some (JSDate.newDate tza year (month - 1) day)) with
     | Some dayData => countWorkDay dayData s
     | None => s
     end,
   (key, sortByTimestamp rs)).
Proof.
  intros H1 H2. unfold dayStep. destruct key as [[y m] d].
  now rewrite H1, H2.
Qed.

Lemma noWorkCounted_refl s : noWorkCounted s s.
Proof. repeat split. Qed.

Lemma noWorkCounted_collectPCs rs s : noWorkCounted s (collectPCs rs s).
Proof. repeat split. Qed.

(** A day without a clock-in or without a clock-out leaves the work
    accumulators alone, whichever branch of the loop body it takes. *)
Lemma dayStep_incomplete key rs s :
  find (hasType clock_in) rs = None \/ find (hasType clock_out) rs = None ->
  noWorkCounted s (fst (dayStep tza cfg (key, rs) s)).
Proof.
  intros H.
  destruct (existsb (hasType paid_leave) rs) eqn:E1.
  { rewrite dayStep_paid_leave by assumption. repeat split. }
  destruct (existsb (hasType absence) rs) eqn:E2.
  { rewrite dayStep_absence by assumption. repeat split. }
  rewrite dayStep_clocks by assumption. destruct key as [[y m] d].
  cbv zeta. rewrite calculateDayWorkData_incomplete
    by now apply incomplete_sorted.
  apply noWorkCounted_collectPCs.
Qed.

(** The work counters only ever grow by what the day adds. *)
Lemma dayStep_workingDays_shift entry s :
  workingDays (fst (dayStep tza cfg entry s)) =
  workingDays s + workingDays (fst (dayStep tza cfg entry emptySummary)).
Proof.
  destruct entry as [[[y m] d] rs]. unfold dayStep.
  destruct (existsb (hasType paid_leave) rs); [simpl; lia|].
  destruct (existsb (hasType absence) rs); [simpl; lia|].
  destruct (calculateDayWorkData _ _ _ _); simpl; lia.
Qed.

Lemma dayStep_totalWorkMinutes_shift entry s :
  totalWorkMinutes (fst (dayStep tza cfg entry s)) =
  totalWorkMinutes s +
  totalWorkMinutes (fst (dayStep tza cfg entry emptySummary)).
Proof.
  destruct entry as [[[y m] d] rs]. unfold dayStep.
  destruct (existsb (hasType paid_leave) rs); [simpl; lia|].
  destruct (existsb (hasType absence) rs); [simpl; lia|].
  destruct (calculateDayWorkData _ _ _ _); simpl; lia.
Qed.

Lemma summarizeDays_cons entry m s :
  fst (summarizeDays tza cfg (entry :: m) s) =
  fst (summarizeDays tza cfg m (fst (dayStep tza cfg entry s))).
Proof.
  simpl. destruct (dayStep tza cfg entry s) as [s1 e1]. simpl.
  now destruct (summarizeDays tza cfg m s1).
Qed.

Lemma summarizeDays_app m1 m2 s :
  fst (summarizeDays tza cfg (m1 ++ m2) s) =
  fst (summarizeDays tza cfg m2 (fst (summarizeDays tza cfg m1 s))).
Proof.
  revert s. induction m1 as [|e m1 IH]; intros s; [reflexivity|].
  rewrite <- app_comm_cons, !summarizeDays_cons. apply IH.
Qed.

Lemma summarizeDays_workingDays_shift m s :
  workingDays (fst (summarizeDays tza cfg m s)) =
  workingDays s + workingDays (fst (summarizeDays tza cfg m emptySummary)).
Proof.
  revert s. induction m as [|e m IH]; intros s; [simpl; lia|].
  rewrite !summarizeDays_cons, IH.
  rewrite (IH (fst (dayStep tza cfg e emptySummary))).
  rewrite dayStep_workingDays_shift. lia.
Qed.

Lemma summarizeDays_totalWorkMinutes_shift m s :
  totalWorkMinutes (fst (summarizeDays tza cfg m s)) =
  totalWorkMinutes s +
  totalWorkMinutes (fst (summarizeDays tza cfg m emptySummary)).
Proof.
  revert s. induction m as [|e m IH]; intros s; [simpl; lia|].
  rewrite !summarizeDays_cons, IH.
  rewrite (IH (fst (dayStep tza cfg e emptySummary))).
  rewrite dayStep_totalWorkMinutes_shift. lia.
Qed.

End MonthlyLoop.

(* ================================================================== *)
(** ** Days that are not working days *)
(* ================================================================== *)

Import Monthly Reference Samples.

(** C4. A day without a clock-in yields no day data
    ([calculateDayWorkData] returns null), and so does a day with a
    clock-in but no clock-out; such a day adds nothing to [workingDays]
    or [totalWorkMinutes], in one iteration of the loop and in the totals
    of the whole period, which are those of the period without that day. *)
Theorem incomplete_day_excluded tza cfg pre key rs post s :
  find (hasType clock_in) rs = None \/ find (hasType clock_out) rs = None ->
  (forall c date, calculateDayWorkData tza rs c date = None) /\
  noWorkCounted s (fst (dayStep tza cfg (key, rs) s)) /\
  workingDays (fst (summarizeDays tza cfg (pre ++ (key, rs) :: post) s)) =
  workingDays (fst (summarizeDays tza cfg (pre ++ post) s)) /\
  totalWorkMinutes (fst (summarizeDays tza cfg (pre ++ (key, rs) :: post) s)) =
  totalWorkMinutes (fst (summarizeDays tza cfg (pre ++ post) s)).
Proof.
  intros H.
  pose proof (dayStep_incomplete tza cfg key rs) as Hday.
  split; [intros c date; now apply calculateDayWorkData_incomplete|].
  split; [now apply Hday|].
  rewrite !summarizeDays_app, !summarizeDays_cons.
  set (s1 := fst (summarizeDays tza cfg pre s)).
  destruct (Hday s1 H) as (Hw & Hm & _).
  split.
  - rewrite summarizeDays_workingDays_shift, Hw.
    symmetry. apply summarizeDays_workingDays_shift.
  - rewrite summarizeDays_totalWorkMinutes_shift, Hm.
    symmetry. apply summarizeDays_totalWorkMinutes_shift.
Qed.

Lemma incomplete_day_excluded_witness :
  find (hasType clock_out) dayWithoutClockOut = None /\
  workingDays
    (fst (summarizeDays jst nineToSix
            ([(monday, dayWithBreak)] ++ ((2025, 1, 7), dayWithoutClockOut) :: [])
            emptySummary)) =
  workingDays
    (fst (summarizeDays jst nineToSix ([(monday, dayWithBreak)] ++ [])
            emptySummary)).
Proof.
  split; [reflexivity|].
  apply (incomplete_day_excluded jst nineToSix [(monday, dayWithBreak)]
           (2025, 1, 7) dayWithoutClockOut [] emptySummary).
  right. reflexivity.
Defined.

(** C5 (as amended). A day holding a paid-leave event is counted in
    [paidLeaveDays] only, and a day holding an absence event and no
    paid-leave event is counted in [absenceDays] only; in both cases the
    clock events of the day are not looked at, the array is left as it
    was, and no work accumulator changes. *)
Theorem leave_day_short_circuits tza cfg key rs s :
  (existsb (hasType paid_leave) rs = true ->
   dayStep tza cfg (key, rs) s = (countPaidLeave s, (key, rs)) /\
   paidLeaveDays (countPaidLeave s) = paidLeaveDays s + 1 /\
   absenceDays (countPaidLeave s) = absenceDays s /\
   noWorkCounted s (countPaidLeave s)) /\
  (existsb (hasType paid_leave) rs = false ->
   existsb (hasType absence) rs = true ->
   dayStep tza cfg (key, rs) s = (countAbsence s, (key, rs)) /\
   absenceDays (countAbsence s) = absenceDays s + 1 /\
   paidLeaveDays (countAbsence s) = paidLeaveDays s /\
   noWorkCounted s (countAbsence s)).
Proof.
  split.
  - intros H. split; [now apply dayStep_paid_leave|]. repeat split.
  - intros H1 H2. split; [now apply dayStep_absence|]. repeat split.
Qed.

Lemma leave_day_short_circuits_witness :
  (existsb (hasType paid_leave) paidLeaveWithClocks = true /\
   fst (dayStep jst nineToSix (monday, paidLeaveWithClocks) emptySummary) =
   countPaidLeave emptySummary) /\
  (existsb (hasType paid_leave) absenceDay = false /\
   existsb (hasType absence) absenceDay = true /\
   fst (dayStep jst nineToSix (monday, absenceDay) emptySummary) =
   countAbsence emptySummary).
Proof.
  split.
  - split; [reflexivity|].
    destruct (leave_day_short_circuits jst nineToSix monday
                paidLeaveWithClocks emptySummary) as [H _].
    destruct (H eq_refl) as [E _]. now rewrite E.
  - split; [reflexivity|]. split; [reflexivity|].
    destruct (leave_day_short_circuits jst nineToSix monday
                absenceDay emptySummary) as [_ H].
    destruct (H eq_refl eq_refl) as [E _]. now rewrite E.
Defined.

(** C5, as stated, fails on a day that holds an absence event together
    with a paid-leave event: the day contains an absence, yet
    [absenceDays] is not incremented. *)
Lemma absence_with_paid_leave_not_counted :
  existsb (hasType absence) leaveAndAbsence = true /\
  absenceDays (fst (dayStep jst nineToSix (monday, leaveAndAbsence) emptySummary))
  = absenceDays emptySummary /\
  absenceDays (fst (dayStep jst nineToSix (monday, leaveAndAbsence) emptySummary))
  <> absenceDays emptySummary + 1.
Proof. repeat split. vm_compute. discriminate. Qed.

(** C10. On a day holding both a paid-leave and an absence event the
    paid-leave check comes first and ends the iteration: [paidLeaveDays]
    grows by one, [absenceDays] does not change, nothing else does. *)
Theorem paid_leave_precedes_absence tza cfg key rs s :
  existsb (hasType paid_leave) rs = true ->
  existsb (hasType absence) rs = true ->
  let s' := fst (dayStep tza cfg (key, rs) s) in
  paidLeaveDays s' = paidLeaveDays s + 1 /\
  absenceDays s' = absenceDays s /\
  noWorkCounted s s' /\
  usedPCs s' = usedPCs s.
Proof.
  intros H _. rewrite dayStep_paid_leave by assumption. repeat split.
Qed.

Lemma paid_leave_precedes_absence_witness :
  existsb (hasType paid_leave) leaveAndAbsence = true /\
  existsb (hasType absence) leaveAndAbsence = true /\
  paidLeaveDays
    (fst (dayStep jst nineToSix (monday, leaveAndAbsence) emptySummary)) =
  paidLeaveDays emptySummary + 1 /\
  absenceDays
    (fst (dayStep jst nineToSix (monday, leaveAndAbsence) emptySummary)) =
  absenceDays emptySummary.
Proof.
  split; [reflexivity|]. split; [reflexivity|].
  destruct (paid_leave_precedes_absence jst nineToSix monday leaveAndAbsence
              emptySummary eq_refl eq_refl) as (H1 & H2 & _).
  split; assumption.
Defined.

(* ================================================================== *)
(** ** Unordered input and repeated runs *)
(* ================================================================== *)

Lemma dayStep_sorted_input tza cfg key rs s :
  fst (dayStep tza cfg (key, rs) s) =
  fst (dayStep tza cfg (key, sortByTimestamp rs) s).
Proof.
  pose proof (sortByTimestamp_perm rs) as Hp.
  destruct key as [[y m] d]. unfold dayStep.
  rewrite <- (existsb_perm (hasType paid_leave) _ _ Hp).
  rewrite <- (existsb_perm (hasType absence) _ _ Hp).
  destruct (existsb (hasType paid_leave) rs); [reflexivity|].
  destruct (existsb (hasType absence) rs); [reflexivity|].
  now rewrite sortByTimestamp_idem.
Qed.

Lemma dayStep_array tza cfg key rs s :
  snd (dayStep tza cfg (key, rs) s) =
  (key, if existsb (hasType paid_leave) rs || existsb (hasType absence) rs
        then rs else sortByTimestamp rs).
Proof.
  destruct key as [[y m] d]. unfold dayStep.
  destruct (existsb (hasType paid_leave) rs); [reflexivity|].
  destruct (existsb (hasType absence) rs); reflexivity.
Qed.

(** C8 (as amended). The loop never rejects a day for the order of its
    events: it sorts the day's array in place, ascending by instant and
    stably (the records of one instant keep the order they had), before
    the work-time calculation, so that the accumulators after a day are
    those the ascending arrangement of the same events gives; the array
    is left sorted unless the day was a leave day. *)
Theorem unordered_day_is_sorted tza cfg key rs s :
  Sorted tsLe (sortByTimestamp rs) /\
  Permutation rs (sortByTimestamp rs) /\
  (forall t, filter (fun r => timestamp r =? t) (sortByTimestamp rs) =
             filter (fun r => timestamp r =? t) rs) /\
  fst (dayStep tza cfg (key, rs) s) =
  fst (dayStep tza cfg (key, sortByTimestamp rs) s) /\
  snd (dayStep tza cfg (key, rs) s) =
  (key, if existsb (hasType paid_leave) rs || existsb (hasType absence) rs
        then rs else sortByTimestamp rs).
Proof.
  split; [apply sortByTimestamp_sorted|].
  split; [apply sortByTimestamp_perm|].
  split; [intros t; apply sortByTimestamp_stable|].
  split; [apply dayStep_sorted_input|apply dayStep_array].
Qed.

(** C8, as stated, fails: a day whose clock-out is stored before its
    clock-in is not in ascending order, yet it is not rejected; the loop
    re-sorts it and counts it as a working day of 540 minutes. *)
Lemma unordered_day_accepted :
  ~ Sorted tsLe unorderedDay /\
  calculateDayWorkData jst unorderedDay (Some nineToSix) None <> None /\
  snd (dayStep jst nineToSix (monday, unorderedDay) emptySummary) =
  (monday, [punch clock_in 9 0; punch clock_out 18 0]) /\
  workingDays (fst (dayStep jst nineToSix (monday, unorderedDay) emptySummary))
  = 1 /\
  totalWorkMinutes
    (fst (dayStep jst nineToSix (monday, unorderedDay) emptySummary)) = 540.
Proof.
  split.
  - intros H. apply Sorted_inv in H. destruct H as [_ H].
    apply HdRel_inv in H. vm_compute in H. now apply H.
  - split; [discriminate|]. repeat split.
Qed.

Lemma dayStep_rerun tza cfg entry s :
  dayStep tza cfg (snd (dayStep tza cfg entry s)) s = dayStep tza cfg entry s.
Proof.
  destruct entry as [key rs].
  destruct (existsb (hasType paid_leave) rs) eqn:E1.
  { rewrite (dayStep_paid_leave tza cfg key rs s E1). cbn [snd].
    now apply dayStep_paid_leave. }
  destruct (existsb (hasType absence) rs) eqn:E2.
  { rewrite (dayStep_absence tza cfg key rs s E1 E2). cbn [snd].
    now apply dayStep_absence. }
  pose proof (sortByTimestamp_perm rs) as Hp.
  rewrite (dayStep_clocks tza cfg key rs s E1 E2). cbn [snd].
  rewrite dayStep_clocks.
  - now rewrite sortByTimestamp_idem.
  - now rewrite <- (existsb_perm _ _ _ Hp).
  - now rewrite <- (existsb_perm _ _ _ Hp).
Qed.

(** C9 (as amended). In one time zone of the host, a second run of the
    loop gives what the first gave: its one effect is the in-place sort
    of the day arrays, and run again from the same accumulators on the
    map as the first run left it, the loop returns the very same
    accumulators and leaves the same map.  The time zone itself is read
    besides the arguments (the date keys, [setHours], [getDay]), and the
    result depends on it: the week of [januaryWeek] counts 3 working
    days and 1120 minutes at UTC+9, and 1 working day and 120 minutes
    at UTC-5. *)
Theorem rerun_yields_identical_summary tza cfg m s :
  summarizeDays tza cfg (snd (summarizeDays tza cfg m s)) s =
  summarizeDays tza cfg m s /\
  (workingDays (summarizeEmployee jst nineToSix januaryWeek) = 3 /\
   totalWorkMinutes (summarizeEmployee jst nineToSix januaryWeek) = 1120 /\
   workingDays (summarizeEmployee est nineToSix januaryWeek) = 1 /\
   totalWorkMinutes (summarizeEmployee est nineToSix januaryWeek) = 120).
Proof.
  split; [|vm_compute; repeat split].
  revert s. induction m as [|entry m IH]; intros s; [reflexivity|].
  simpl.
  destruct (dayStep tza cfg entry s) as [s1 e1] eqn:E.
  destruct (summarizeDays tza cfg m s1) as [s2 m1] eqn:Em.
  simpl.
  assert (He : dayStep tza cfg e1 s = (s1, e1)).
  { pose proof (dayStep_rerun tza cfg entry s) as H.
    now rewrite E in H. }
  rewrite He.
  specialize (IH s1). rewrite Em in IH. simpl in IH.
  now rewrite IH.
Qed.

(** C9, as stated, fails: the calculation reads the time zone of the
    host, which is not among the inputs the claim fixes.  The same
    records and the same settings give another day figure and another
    summary at UTC-5 than at UTC+9: a day from 09:00 to 18:00 on a
    Monday in Japan is on time at UTC+9 and, read at UTC-5, ten hours
    late and begun on a Sunday. *)
Lemma summary_depends_on_time_zone :
  calculateDayWorkData jst [punch clock_in 9 0; punch clock_out 18 0]
    (Some nineToSix) None <>
  calculateDayWorkData est [punch clock_in 9 0; punch clock_out 18 0]
    (Some nineToSix) None /\
  (exists d1 d2,
      calculateDayWorkData jst [punch clock_in 9 0; punch clock_out 18 0]
        (Some nineToSix) None = Some d1 /\
      calculateDayWorkData est [punch clock_in 9 0; punch clock_out 18 0]
        (Some nineToSix) None = Some d2 /\
      lateMinutes d1 = 0 /\ isHolidayWork d1 = false /\
      lateMinutes d2 = 600 /\ isHolidayWork d2 = true) /\
  summarizeEmployee jst nineToSix januaryWeek <>
  summarizeEmployee est nineToSix januaryWeek.
Proof.
  split; [vm_compute; discriminate|].
  split; [|vm_compute; discriminate].
  eexists. eexists. split; [reflexivity|]. split; [reflexivity|].
  vm_compute. repeat split.
Qed.

(** The time-card view, by contrast, does read the clock while the day
    is unfinished. *)
Lemma live_view_reads_clock :
  History.calculateWorkTime (JSDate.newDate7 jst 2025 0 6 10 0 0 0)
    dayWithoutClockOut <>
  History.calculateWorkTime (JSDate.newDate7 jst 2025 0 6 11 0 0 0)
    dayWithoutClockOut.
Proof. vm_compute. discriminate. Qed.

(* ================================================================== *)
(** ** The figures of one day *)
(* ================================================================== *)

Lemma calculateDayWorkData_complete tza rs cfg date cin cout :
  find (hasType clock_in) rs = Some cin ->
  find (hasType clock_out) rs = Some cout ->
  exists d, calculateDayWorkData tza rs cfg date = Some d /\
    workMinutes d = (timestamp cout - timestamp cin) / 60000 /\
    overtimeMinutes d =
      overtimeThroughHours (workMinutes d) (standardWorkHoursOf cfg) /\
    lateMinutes d =
      match atTimeOfDay tza (timestamp cin)
              (stringOr cfg startTime DEFAULT_startTime) with
      | Some standardStart =>
          Z.max 0 ((timestamp cin - standardStart) / 60000)
      | None => 0
      end /\
    isLate d = (0 <? lateMinutes d) /\
    earlyLeaveMinutes d =
      match atTimeOfDay tza (timestamp cout)
              (stringOr cfg endTime DEFAULT_endTime) with
      | Some standardEnd =>
          Z.max 0 ((standardEnd - timestamp cout) / 60000)
      | None => 0
      end /\
    isEarlyLeave d = (0 <? earlyLeaveMinutes d) /\
    isHolidayWork d =
      isHoliday tza (match date with Some w => w | None => timestamp cin end).
Proof.
  intros Hin Hout. unfold calculateDayWorkData. rewrite Hin, Hout.
  eexists. split; [reflexivity|]. cbn [workMinutes overtimeMinutes lateMinutes
    isLate earlyLeaveMinutes isEarlyLeave isHolidayWork].
  change (1000 * 60) with 60000.
  repeat split.
  - destruct (atTimeOfDay tza (timestamp cin) _) as [st|]; [|reflexivity].
    destruct (st <? timestamp cin) eqn:E.
    + apply Z.ltb_lt in E.
      assert (0 <= (timestamp cin - st) / 60000)
        by (apply Z.div_pos; lia). lia.
    + apply Z.ltb_ge in E.
      assert ((timestamp cin - st) / 60000 <= 0)
        by (apply Z.div_le_upper_bound; lia). lia.
  - destruct (atTimeOfDay tza (timestamp cout) _) as [en|]; [|reflexivity].
    destruct (timestamp cout <? en) eqn:E.
    + apply Z.ltb_lt in E.
      assert (0 <= (en - timestamp cout) / 60000)
        by (apply Z.div_pos; lia). lia.
    + apply Z.ltb_ge in E.
      assert ((en - timestamp cout) / 60000 <= 0)
        by (apply Z.div_le_upper_bound; lia). lia.
Qed.

(** Saturday is day 6 and Sunday day 0 of [getDay]. *)
Lemma isHoliday_weekend tza t :
  isHoliday tza t = true <->
  JSDate.getDay tza t = 0 \/ JSDate.getDay tza t = 6.
Proof.
  unfold isHoliday. rewrite orb_true_iff, !Z.eqb_eq. tauto.
Qed.

(** C1 (as amended). For a day with a clock-in and a clock-out,
    [workMinutes] is the gross time from the first clock-in to the first
    clock-out in whole minutes, rounded down: break intervals are not
    deducted and nothing is clamped at zero.  For the day in 09:00, out
    12:00, back 13:00, out 18:00 under the 09:00-18:00 schedule with 8
    standard hours, [workMinutes] is 540, [overtimeMinutes] 60,
    [lateMinutes] 0 and [earlyLeaveMinutes] 0.  The paired breaks are
    deducted elsewhere: the time-card view shows 8 hours 0 minutes for
    that day, and the break loop of the daily view's [calculateWorkTime]
    in [js/monthly.js] subtracts the same 3600000 ms. *)
Theorem workMinutes_is_gross_minutes :
  (forall tza rs cfg date cin cout,
      find (hasType clock_in) rs = Some cin ->
      find (hasType clock_out) rs = Some cout ->
      exists d, calculateDayWorkData tza rs cfg date = Some d /\
                workMinutes d = (timestamp cout - timestamp cin) / 60000) /\
  (exists d, calculateDayWorkData jst dayWithBreak (Some nineToSix) None = Some d /\
             workMinutes d = 540 /\
             overtimeMinutes d = F64.of_Z 60 /\
             lateMinutes d = 0 /\
             earlyLeaveMinutes d = 0) /\
  (forall now, History.calculateWorkTime now dayWithBreak =
               Some (History.mkWorkTime 8 0 true false)) /\
  breakMs (sortByTimestamp dayWithBreak) = 3600000.
Proof.
  split; [|split; [|split]].
  - intros tza rs cfg date cin cout Hin Hout.
    destruct (calculateDayWorkData_complete tza rs cfg date cin cout Hin Hout)
      as (d & Hd & Hw & _).
    now exists d.
  - eexists. split; [reflexivity|]. repeat split.
  - intros now. reflexivity.
  - reflexivity.
Qed.

Lemma workMinutes_is_gross_minutes_witness :
  find (hasType clock_in) dayWithOpenBreak = Some (punch clock_in 9 0) /\
  find (hasType clock_out) dayWithOpenBreak = Some (punch clock_out 18 0) /\
  exists d, calculateDayWorkData jst dayWithOpenBreak None None = Some d /\
            workMinutes d =
            (timestamp (punch clock_out 18 0) - timestamp (punch clock_in 9 0))
            / 60000.
Proof.
  split; [reflexivity|]. split; [reflexivity|].
  apply (proj1 workMinutes_is_gross_minutes jst dayWithOpenBreak None None);
    reflexivity.
Defined.

(** C1, as stated, fails on its own example: the hour out for lunch is
    not deducted, so the day counts 540 minutes and one hour of overtime
    where the claim has 480 and none. *)
Lemma break_not_deducted_in_day_data :
  exists d, calculateDayWorkData jst dayWithBreak (Some nineToSix) None = Some d /\
            workMinutes d = 540 /\ workMinutes d <> 480 /\
            overtimeMinutes d = F64.of_Z 60 /\
            overtimeMinutes d <> F64.of_Z 0.
Proof.
  eexists. split; [reflexivity|]. repeat split; vm_compute; discriminate.
Qed.

(** C2 (the code departs from the claim). For a day of 482 worked
    minutes against 8 standard hours the claim's formula gives 2 minutes
    of overtime; [calculateDayWorkData] goes through hours in binary64
    (482/60 - 8 is a little under 2/60) and rounds down to 1. *)
Theorem overtime_loses_a_minute :
  exists d, calculateDayWorkData jst dayOf482Minutes (Some nineToSix) None = Some d /\
            workMinutes d = 482 /\
            overtimeFormula (workMinutes d) 8 = 2 /\
            overtimeMinutes d = F64.of_Z 1 /\
            overtimeMinutes d <> F64.of_Z (overtimeFormula (workMinutes d) 8).
Proof.
  eexists. split; [reflexivity|]. repeat split. vm_compute. discriminate.
Qed.

(** Against 8 standard hours, and for every length of a day up to 24
    hours, the overtime figure is the formula's or one minute short. *)
Lemma overtime_within_one_minute w :
  In w minutesOfDay -> overtimeWithinOne w = true.
Proof.
  revert w. apply forallb_forall. vm_compute. reflexivity.
Qed.

(* ================================================================== *)
(** ** Break pairing *)
(* ================================================================== *)

Section BreakPairing.

Import History.

Lemma find_first_split {A} (p : A -> bool) l x :
  find p l = Some x ->
  exists l1 l2, l = l1 ++ x :: l2 /\ p x = true /\
                forall y, In y l1 -> p y = false.
Proof.
  induction l as [|a l IH]; simpl; [discriminate|].
  destruct (p a) eqn:E.
  - intros [= ->]. exists [], l. repeat split; [assumption|intros y []].
  - intros H. destruct (IH H) as (l1 & l2 & -> & Hx & Hl1).
    exists (a :: l1), l2. repeat split; [assumption|].
    intros y [<-|Hy]; [assumption|now apply Hl1].
Qed.

Lemma find_app_first {A} (p : A -> bool) l1 x l2 :
  (forall y, In y l1 -> p y = false) -> p x = true ->
  find p (l1 ++ x :: l2) = Some x.
Proof.
  induction l1 as [|a l1 IH]; simpl; intros Hl1 Hx.
  - now rewrite Hx.
  - rewrite (Hl1 a (or_introl eq_refl)). apply IH; [|assumption].
    intros y Hy. apply Hl1. now right.
Qed.

Lemma find_app_skip {A} (p : A -> bool) pre b post :
  p b = false -> find p (pre ++ b :: post) = find p (pre ++ post).
Proof.
  intros Hb. induction pre as [|a pre IH]; simpl.
  - now rewrite Hb.
  - now rewrite IH.
Qed.

(** The nested loops and the one-pass reading agree, whatever is
    pending on entry. *)
Lemma flushPairs_breakPairs rs : forall pending,
  flushPairs pending rs =
  match find (hasType break_end) rs with
  | Some e => map (fun s => (s, timestamp e)) pending
  | None => []
  end ++ breakPairs rs.
Proof.
  induction rs as [|r rs IH]; intros pending; [reflexivity|].
  cbn [flushPairs breakPairs find]. unfold hasType at 1 3.
  destruct (rtype r); cbn [RecordType_eqb]; rewrite IH;
    try reflexivity.
  - destruct (find (hasType break_end) rs) as [e|]; [|reflexivity].
    now rewrite map_app, <- app_assoc.
  - cbn [map]. now destruct (find (hasType break_end) rs).
Qed.

(** Where no break is opened inside an open one, the nested loops pair
    as a stack would. *)
Lemma stackPairs_breakPairs rs :
  (noNestedBreak false rs = true -> stackPairs [] rs = breakPairs rs) /\
  (noNestedBreak true rs = true -> forall s,
      stackPairs [s] rs =
      match find (hasType break_end) rs with
      | Some e => [(s, timestamp e)]
      | None => []
      end ++ breakPairs rs).
Proof.
  induction rs as [|r rs [IHa IHb]]; [split; reflexivity|].
  destruct r as [t ts pc].
  destruct t; cbn; try (split; [exact IHa|exact IHb]).
  - split; [|discriminate].
    intros H. exact (IHb H ts).
  - split.
    + exact IHa.
    + intros H s. now rewrite (IHa H).
Qed.

(** What a pair of [breakPairs] is: a [break_start], and the first
    [break_end] that follows it. *)
Lemma breakPairs_In rs s e :
  In (s, e) (breakPairs rs) <->
  exists pre r mid x post,
    rs = pre ++ r :: mid ++ x :: post /\
    rtype r = break_start /\ rtype x = break_end /\
    (forall y, In y mid -> rtype y <> break_end) /\
    s = timestamp r /\ e = timestamp x.
Proof.
  split.
  - induction rs as [|r rs IH]; simpl; [intros []|].
    rewrite in_app_iff. intros [H|H].
    + destruct (hasType break_start r) eqn:Er; [|destruct H].
      destruct (find (hasType break_end) rs) as [x|] eqn:Ef; [|destruct H].
      destruct H as [[= <- <-]|[]].
      destruct (find_first_split _ _ _ Ef) as (mid & post & -> & Hx & Hmid).
      exists [], r, mid, x, post. repeat split.
      * now apply hasType_iff.
      * now apply hasType_iff.
      * intros y Hy Hc. apply hasType_iff in Hc.
        rewrite (Hmid y Hy) in Hc. discriminate.
    + destruct (IH H) as (pre & r' & mid & x & post & -> & Hr).
      exists (r :: pre), r', mid, x, post. now split.
  - intros (pre & r & mid & x & post & -> & Hr & Hx & Hmid & -> & ->).
    induction pre as [|a pre IH]; simpl; rewrite in_app_iff.
    + left. apply hasType_iff in Hr. rewrite Hr.
      rewrite find_app_first; [now left| |now apply hasType_iff].
      intros y Hy. destruct (hasType break_end y) eqn:E; [|reflexivity].
      apply hasType_iff in E. now destruct (Hmid y Hy).
    + now right.
Qed.

(** A [break_start] that no [break_end] follows leaves the pairs, and
    with them the deducted time, as they are without it. *)
Lemma breakPairs_unterminated pre b post :
  rtype b = break_start ->
  find (hasType break_end) post = None ->
  breakPairs (pre ++ b :: post) = breakPairs (pre ++ post).
Proof.
  intros Hb Hpost. induction pre as [|a pre IH]; simpl.
  - apply hasType_iff in Hb. now rewrite Hb, Hpost.
  - rewrite IH, find_app_skip; [reflexivity|].
    unfold hasType. now rewrite Hb.
Qed.

Lemma lastRecord_app pre b post :
  lastRecord (pre ++ b :: post) = lastRecord (b :: post).
Proof.
  unfold lastRecord. rewrite rev_app_distr.
  destruct (rev (b :: post)) as [|x l] eqn:E; [|reflexivity].
  apply (f_equal (@List.length _)) in E. rewrite List.length_rev in E.
  discriminate.
Qed.

End BreakPairing.

(** C3 (as amended). The nested loops pair first-match-forward: every
    [break_start] that some [break_end] follows is closed by the first
    [break_end] after it, so one [break_end] closes every [break_start]
    met since the previous [break_end], not only the most recent; the
    closed intervals come out in the order of their starts. *)
Theorem break_pairing_first_match_forward rs :
  History.breakPairs rs = flushPairs [] rs /\
  (forall s e,
      In (s, e) (History.breakPairs rs) <->
      exists pre r mid x post,
        rs = pre ++ r :: mid ++ x :: post /\
        rtype r = break_start /\ rtype x = break_end /\
        (forall y, In y mid -> rtype y <> break_end) /\
        s = timestamp r /\ e = timestamp x).
Proof.
  split.
  - rewrite flushPairs_breakPairs.
    now destruct (find (hasType break_end) rs).
  - intros s e. apply breakPairs_In.
Qed.

Lemma break_pairing_first_match_forward_witness :
  In (timestamp (punch break_start 10 0), timestamp (punch break_end 12 0))
     (History.breakPairs interleavedBreaks).
Proof.
  apply (proj2 (break_pairing_first_match_forward interleavedBreaks)).
  exists [], (punch break_start 10 0), [punch break_start 11 0],
    (punch break_end 12 0), [].
  repeat split.
  intros y [<-|[]]. discriminate.
Defined.

(** C3, as stated, fails on the interleaving of its own example: with
    starts at 10:00 and 11:00 and one end at 12:00, the end closes both
    starts, where stack discipline closes the later one only. *)
Lemma break_end_closes_two_starts :
  History.breakPairs interleavedBreaks =
  [(timestamp (punch break_start 10 0), timestamp (punch break_end 12 0));
   (timestamp (punch break_start 11 0), timestamp (punch break_end 12 0))] /\
  stackPairs [] interleavedBreaks =
  [(timestamp (punch break_start 11 0), timestamp (punch break_end 12 0))] /\
  History.breakPairs interleavedBreaks <> stackPairs [] interleavedBreaks.
Proof. repeat split. vm_compute. discriminate. Qed.

(** The two policies agree on days where no break starts inside an open
    one, which is every day the time-card buttons can produce. *)
Lemma break_pairing_agrees_with_stack rs :
  noNestedBreak false rs = true ->
  History.breakPairs rs = stackPairs [] rs.
Proof.
  intros H. symmetry. now apply stackPairs_breakPairs.
Qed.

(** The daily view of [js/monthly.js] subtracts the same pairs. *)
Lemma breakMs_breakPairs rs :
  breakMs rs = History.breakMsOf (History.breakPairs rs).
Proof.
  unfold History.breakMsOf.
  assert (G : forall l acc,
             fold_left (fun a (p : Z * Z) => a + (snd p - fst p)) l acc =
             acc + fold_left (fun a p => a + (snd p - fst p)) l 0).
  { induction l as [|p l IH]; intros acc; simpl; [lia|].
    rewrite IH, (IH (snd p - fst p)). lia. }
  induction rs as [|r rs IH]; [reflexivity|].
  cbn [breakMs History.breakPairs]. rewrite fold_left_app, G, <- IH.
  destruct (hasType break_start r); [|simpl; lia].
  destruct (find (hasType break_end) rs); simpl; lia.
Qed.

(** C7 (as amended). A [break_start] that no [break_end] follows
    subtracts nothing: [calculateWorkTime] returns, and its hours and
    minutes are those of the same day without that event.  The flag
    [isOnBreak] tells whether the last event of the day is a
    [break_start]; it is set when the unterminated start is the last
    event, and it is not set when another kind of event follows. *)
Theorem unterminated_break_subtracts_nothing now pre b post cin :
  rtype b = break_start ->
  find (hasType break_end) post = None ->
  find (hasType clock_in) (pre ++ b :: post) = Some cin ->
  exists w w',
    History.calculateWorkTime now (pre ++ b :: post) = Some w /\
    History.calculateWorkTime now (pre ++ post) = Some w' /\
    History.hours w = History.hours w' /\
    History.minutes w = History.minutes w' /\
    History.isOnBreak w =
      match History.lastRecord (b :: post) with
      | Some r => hasType break_start r
      | None => false
      end /\
    (post = [] -> History.isOnBreak w = true).
Proof.
  intros Hb Hpost Hin.
  assert (Hci : hasType clock_in b = false)
    by (unfold hasType; now rewrite Hb).
  assert (Hco : hasType clock_out b = false)
    by (unfold hasType; now rewrite Hb).
  unfold History.calculateWorkTime.
  rewrite <- (find_app_skip _ pre b post Hci).
  rewrite <- (find_app_skip _ pre b post Hco).
  rewrite <- (breakPairs_unterminated pre b post Hb Hpost).
  rewrite Hin, lastRecord_app.
  do 2 eexists. split; [reflexivity|]. split; [reflexivity|].
  cbn [History.hours History.minutes History.isOnBreak].
  repeat split.
  intros ->. cbn. now apply hasType_iff.
Qed.

Lemma unterminated_break_subtracts_nothing_witness :
  rtype (punch break_start 12 0) = break_start /\
  find (hasType break_end) [punch clock_out 18 0] = None /\
  find (hasType clock_in)
       ([punch clock_in 9 0] ++ punch break_start 12 0 :: [punch clock_out 18 0])
  = Some (punch clock_in 9 0) /\
  exists w w',
    History.calculateWorkTime 0
      ([punch clock_in 9 0] ++ punch break_start 12 0 :: [punch clock_out 18 0])
    = Some w /\
    History.calculateWorkTime 0 ([punch clock_in 9 0] ++ [punch clock_out 18 0])
    = Some w' /\
    History.hours w = History.hours w' /\
    History.minutes w = History.minutes w'.
Proof.
  split; [reflexivity|]. split; [reflexivity|]. split; [reflexivity|].
  destruct (unterminated_break_subtracts_nothing 0 [punch clock_in 9 0]
              (punch break_start 12 0) [punch clock_out 18 0]
              (punch clock_in 9 0) eq_refl eq_refl eq_refl)
    as (w & w' & H1 & H2 & H3 & H4 & _).
  exists w, w'. repeat split; assumption.
Defined.

(** C7, as stated, fails on the flag: on a day in 09:00, out 12:00 and
    never back, clocked out at 18:00, the break is unterminated and
    nothing is deducted (9 hours 0 minutes), yet [isOnBreak] is false,
    the last event being the clock-out. *)
Lemma open_break_not_flagged :
  In (punch break_start 12 0) dayWithOpenBreak /\
  find (hasType break_end) dayWithOpenBreak = None /\
  forall now,
    History.calculateWorkTime now dayWithOpenBreak =
    Some (History.mkWorkTime 9 0 true false).
Proof.
  split; [right; left; reflexivity|]. split; reflexivity.
Qed.

(* ================================================================== *)
(** ** The closing-day period *)
(* ================================================================== *)

Section ClosingPeriod.

Import JSDate.

Lemma LocalTime_UTC tza x : LocalTime tza (UTC tza x) = x.
Proof. unfold LocalTime, UTC. lia. Qed.

(** The period is computed on local calendar fields only, so the zone
    offset moves both ends and nothing else. *)
Lemma calculatePeriod_zone tza year month closingDay :
  calculatePeriod tza year month closingDay =
  (fst (calculatePeriod 0 year month closingDay) - tza,
   snd (calculatePeriod 0 year month closingDay) - tza).
Proof.
  unfold calculatePeriod, setHours, setMonth, getMonth, newDate, newDate7.
  cbv zeta. rewrite !LocalTime_UTC. cbn [fst snd].
  unfold UTC. now rewrite !Z.sub_0_r.
Qed.

Lemma closingWindow_zone tza year month closingDay :
  closingWindow tza year month closingDay =
  (fst (closingWindow 0 year month closingDay) - tza,
   snd (closingWindow 0 year month closingDay) - tza).
Proof.
  unfold closingWindow, newDate7. cbv zeta. cbn [fst snd].
  unfold UTC. now rewrite !Z.sub_0_r.
Qed.

Lemma newDate7_zone tza y mo d h mi s ms :
  newDate7 tza y mo d h mi s ms = newDate7 0 y mo d h mi s ms - tza.
Proof. unfold newDate7, UTC. cbv zeta. now rewrite Z.sub_0_r. Qed.

End ClosingPeriod.

(** The example of the specification: with closing day 25, the period of
    January 2025 runs from 2024-12-26 00:00:00 to 2025-01-25 23:59:59.999,
    as the specification's window does. *)
Lemma closing_day_25_of_january tza :
  calculatePeriod tza 2025 1 25 =
  (JSDate.newDate7 tza 2024 11 26 0 0 0 0,
   JSDate.newDate7 tza 2025 0 25 23 59 59 999) /\
  calculatePeriod tza 2025 1 25 = closingWindow tza 2025 1 25.
Proof.
  rewrite calculatePeriod_zone, closingWindow_zone, !(newDate7_zone tza).
  split; reflexivity.
Qed.

(** C6 (the code departs from the claim). With closing day 28, the
    period of February 2025 should start on 2025-01-29, day 29 of the
    previous month.  [calculatePeriod] first builds day 29 of February,
    which rolls over to 1 March, and only then steps one month back: the
    period starts on 2025-02-01 00:00:00.  Its end, 2025-02-28
    23:59:59.999, is the one the claim gives. *)
Theorem closing_day_28_of_february tza :
  calculatePeriod tza 2025 2 28 =
  (JSDate.newDate7 tza 2025 1 1 0 0 0 0,
   JSDate.newDate7 tza 2025 1 28 23 59 59 999) /\
  closingWindow tza 2025 2 28 =
  (JSDate.newDate7 tza 2025 0 29 0 0 0 0,
   JSDate.newDate7 tza 2025 1 28 23 59 59 999) /\
  fst (calculatePeriod tza 2025 2 28) <> fst (closingWindow tza 2025 2 28).
Proof.
  rewrite calculatePeriod_zone, closingWindow_zone, !(newDate7_zone tza).
  split; [reflexivity|]. split; [reflexivity|].
  cbn [fst].
  replace (fst (calculatePeriod 0 2025 2 28)) with 1738368000000
    by (vm_compute; reflexivity).
  replace (fst (closingWindow 0 2025 2 28)) with 1738108800000
    by (vm_compute; reflexivity).
  lia.
Qed.

(** With closing day 31 the periods no longer tile the calendar: the
    period of March 2025 ends with 31 March, the period of April 2025
    starts on 2 April, and 1 April belongs to neither. *)
Lemma closing_day_31_leaves_a_gap tza :
  snd (calculatePeriod tza 2025 3 31) =
  JSDate.newDate7 tza 2025 2 31 23 59 59 999 /\
  fst (calculatePeriod tza 2025 4 31) = JSDate.newDate7 tza 2025 3 2 0 0 0 0 /\
  snd (calculatePeriod tza 2025 3 31) + 1 + JSDate.msPerDay =
  fst (calculatePeriod tza 2025 4 31).
Proof.
  rewrite !(calculatePeriod_zone tza), !(newDate7_zone tza). cbn [fst snd].
  replace (snd (calculatePeriod 0 2025 3 31)) with 1743465599999
    by (vm_compute; reflexivity).
  replace (fst (calculatePeriod 0 2025 4 31)) with 1743552000000
    by (vm_compute; reflexivity).
  repeat split. unfold JSDate.msPerDay. lia.
Qed.

(* ================================================================== *)
(** ** The calendar *)
(* ================================================================== *)

Section Calendar.

Import JSDate.

Lemma zrange_In lo n z : lo <= z < lo + Z.of_nat n -> In z (zrange lo n).
Proof.
  intros H. unfold zrange. apply in_map_iff.
  exists (Z.to_nat (z - lo)). split; [lia|]. apply in_seq. lia.
Qed.

Lemma forallb_zrange (f : Z -> bool) lo n :
  forallb f (zrange lo n) = true ->
  forall z, lo <= z < lo + Z.of_nat n -> f z = true.
Proof.
  intros H z Hz. apply (proj1 (forallb_forall f (zrange lo n)) H).
  now apply zrange_In.
Qed.

(** Every day of every month of a 400-year era, checked by evaluation. *)
Lemma roundTripAll_true : forallb checkMonths (zrange 0 400) = true.
Proof. vm_compute. reflexivity. Qed.

Lemma daysInMonth_le_31 y m : daysInMonth y m <= 31.
Proof.
  unfold daysInMonth.
  destruct (m =? 2); [destruct (isLeapYear y); lia|].
  destruct ((m =? 4) || (m =? 6) || (m =? 9) || (m =? 11)); lia.
Qed.

Lemma roundTrip_in_era yoe m d :
  0 <= yoe < 400 -> 1 <= m <= 12 ->
  1 <= d <= daysInMonth (yoe + janFeb m) m ->
  0 <= doeOf yoe m d < 146097 /\ civilOfDoe (doeOf yoe m d) = (yoe, m, d).
Proof.
  intros Hy Hm Hd.
  pose proof (daysInMonth_le_31 (yoe + janFeb m) m) as H31.
  pose proof (forallb_zrange checkMonths 0 400 roundTripAll_true yoe
                ltac:(lia)) as Hy'.
  pose proof (forallb_zrange (checkDays yoe) 1 12 Hy' m ltac:(lia)) as Hm'.
  pose proof (forallb_zrange (roundTripOk yoe m) 1 31 Hm' d ltac:(lia)) as H.
  clear Hy' Hm'.
  unfold roundTripOk in H.
  replace (d <=? daysInMonth (yoe + janFeb m) m) with true in H
    by (symmetry; apply Z.leb_le; lia).
  cbn [negb orb] in H. cbv zeta in H.
  destruct (civilOfDoe (doeOf yoe m d)) as [[yoe' m'] d'].
  rewrite !andb_true_iff in H.
  destruct H as [[H0 H1] [[H2 H3] H4]].
  apply Z.leb_le in H0. apply Z.ltb_lt in H1.
  apply Z.eqb_eq in H2, H3, H4. subst. now split.
Qed.

Lemma isLeapYear_era k r : isLeapYear (k * 400 + r) = isLeapYear r.
Proof.
  unfold isLeapYear.
  assert (H4 : (k * 400 + r) mod 4 = r mod 4).
  { replace (k * 400 + r) with (r + k * 100 * 4) by ring.
    apply Z.mod_add. lia. }
  assert (H100 : (k * 400 + r) mod 100 = r mod 100).
  { replace (k * 400 + r) with (r + k * 4 * 100) by ring.
    apply Z.mod_add. lia. }
  assert (H400 : (k * 400 + r) mod 400 = r mod 400).
  { rewrite Z.add_comm. apply Z.mod_add. lia. }
  now rewrite H4, H100, H400.
Qed.

Lemma days_from_civil_era y m d :
  days_from_civil y m d =
  (y - janFeb m) / 400 * 146097 + doeOf ((y - janFeb m) mod 400) m d - 719468.
Proof.
  unfold days_from_civil, doeOf, janFeb. cbv zeta.
  destruct (m <=? 2).
  - rewrite (Z.mod_eq (y - 1) 400) by lia.
    replace (y - 1 - 400 * ((y - 1) / 400)) with (y - 1 - (y - 1) / 400 * 400)
      by ring.
    reflexivity.
  - rewrite Z.sub_0_r. rewrite (Z.mod_eq y 400) by lia.
    replace (y - 400 * (y / 400)) with (y - y / 400 * 400) by ring.
    reflexivity.
Qed.

Lemma civil_from_days_era era doe :
  0 <= doe < 146097 ->
  civil_from_days (era * 146097 + doe - 719468) =
  let '(yoe, m, d) := civilOfDoe doe in (yoe + era * 400 + janFeb m, m, d).
Proof.
  intros H. unfold civil_from_days, civilOfDoe, janFeb. cbv zeta.
  replace (era * 146097 + doe - 719468 + 719468) with (doe + era * 146097)
    by ring.
  rewrite Z.div_add by lia. rewrite (Z.div_small doe 146097) by lia.
  replace (doe + era * 146097 - (0 + era) * 146097) with doe by ring.
  match goal with
  | |- context [if ?c <=? 2 then _ else _] => destruct (c <=? 2)
  end; f_equal; f_equal; lia.
Qed.

(** A date of the calendar is the date of its day number. *)
Lemma civil_round_trip y m d :
  1 <= m <= 12 -> 1 <= d <= daysInMonth y m ->
  civil_from_days (days_from_civil y m d) = (y, m, d).
Proof.
  intros Hm Hd. rewrite days_from_civil_era.
  set (y' := y - janFeb m).
  pose proof (Z.mod_pos_bound y' 400 ltac:(lia)) as Hyoe.
  assert (Hy : y = y' / 400 * 400 + (y' mod 400 + janFeb m)).
  { pose proof (Z.div_mod y' 400 ltac:(lia)). unfold y' in *. lia. }
  assert (Hdim : daysInMonth y m = daysInMonth (y' mod 400 + janFeb m) m).
  { unfold daysInMonth. rewrite Hy at 1. now rewrite isLeapYear_era. }
  rewrite Hdim in Hd.
  destruct (roundTrip_in_era (y' mod 400) m d Hyoe Hm Hd) as [Hb Hc].
  rewrite civil_from_days_era by assumption. rewrite Hc.
  f_equal. f_equal. lia.
Qed.

End Calendar.

(* ================================================================== *)
(** ** When the closing-day period is the specified window *)
(* ================================================================== *)

Section PeriodInMonth.

Import JSDate.

Lemma Day_MakeDate d t : 0 <= t < msPerDay -> Day (MakeDate d t) = d.
Proof.
  intros H. unfold Day, MakeDate. rewrite Z.add_comm.
  rewrite Z.div_add by (unfold msPerDay; lia).
  rewrite Z.div_small by assumption. lia.
Qed.

Lemma TimeWithinDay_MakeDate d t :
  0 <= t < msPerDay -> TimeWithinDay (MakeDate d t) = t.
Proof.
  intros H. unfold TimeWithinDay, MakeDate. rewrite Z.add_comm.
  rewrite Z.mod_add by (unfold msPerDay; lia).
  now apply Z.mod_small.
Qed.

(** Within the months 0..11 [MakeDay] is the day number of the date. *)
Lemma MakeDay_in_year y m d :
  0 <= m <= 11 -> MakeDay y m d = days_from_civil y (m + 1) d.
Proof.
  intros H. unfold MakeDay. cbv zeta.
  rewrite Z.div_small, Z.mod_small, Z.add_0_r by lia.
  unfold days_from_civil. cbv zeta. lia.
Qed.

Lemma fullYear_100 year :
  100 <= year -> (0 <=? year) && (year <=? 99) = false.
Proof.
  intros H. apply andb_false_iff. right. apply Z.leb_gt. lia.
Qed.

End PeriodInMonth.

(** Where day [closingDay + 1] exists in the given month, the period of
    [calculatePeriod] is the window of the specification. *)
Lemma calculatePeriod_meets_window tza year month closingDay :
  100 <= year -> 1 <= month <= 12 ->
  0 <= closingDay < JSDate.daysInMonth year month ->
  calculatePeriod tza year month closingDay =
  closingWindow tza year month closingDay.
Proof.
  intros Hy Hm Hc.
  rewrite calculatePeriod_zone, closingWindow_zone.
  assert (Hzero : JSDate.MakeTime 0 0 0 0 = 0) by reflexivity.
  assert (Hday : 0 <= 0 < JSDate.msPerDay) by (unfold JSDate.msPerDay; lia).
  assert (Hciv : JSDate.civil_from_days
                   (JSDate.MakeDay year (month - 1) (closingDay + 1)) =
                 (year, month, closingDay + 1)).
  { rewrite MakeDay_in_year by lia.
    replace (month - 1 + 1) with month by lia.
    apply civil_round_trip; lia. }
  unfold calculatePeriod, closingWindow, JSDate.newDate, JSDate.newDate7,
    JSDate.setMonth, JSDate.setHours, JSDate.getMonth, JSDate.YearFromTime,
    JSDate.MonthFromTime, JSDate.DateFromTime, JSDate.LocalTime, JSDate.UTC.
  cbv zeta. rewrite (fullYear_100 year Hy). cbn [fst snd].
  rewrite !Z.sub_0_r, !Z.add_0_r, Hzero.
  rewrite !(Day_MakeDate _ 0 Hday), !(TimeWithinDay_MakeDate _ 0 Hday).
  rewrite Hciv. cbn [fst snd].
  rewrite !(Day_MakeDate _ 0 Hday).
  replace (month - 1 - 1) with (month - 2) by lia.
  reflexivity.
Qed.

Lemma calculatePeriod_meets_window_example :
  calculatePeriod jst 2024 2 28 = closingWindow jst 2024 2 28.
Proof.
  apply calculatePeriod_meets_window; [lia|lia|vm_compute; now split].
Qed.


(* ================================================================== *)
(** ** Worked examples *)
(* ================================================================== *)

(** The records of a week, grouped by day and summed. *)
Example januaryWeek_summary :
  summarizeEmployee jst nineToSix januaryWeek =
  mkSummary 3 1120 (F64.of_Z 60) 2 80 2 420 1 120 1 0 ["PC-1"%string].
Proof. vm_compute. reflexivity. Qed.

(** The lateness example of the specification: in at 09:20 against a
    start at 09:00 is 20 minutes late. *)
Example late_by_twenty_minutes :
  exists d,
    calculateDayWorkData jst [punchOn 9 clock_in 9 20; punchOn 9 clock_out 17 0]
      (Some nineToSix) None = Some d /\
    lateMinutes d = 20 /\ isLate d = true /\
    earlyLeaveMinutes d = 60 /\ isEarlyLeave d = true /\
    isHolidayWork d = false.
Proof. eexists. split; [reflexivity|]. repeat split. Qed.

(** While the last event is a [break_start] the view shows the break. *)
Example on_break_while_out now :
  exists w, History.calculateWorkTime now dayEndingOnBreak = Some w /\
            History.isOnBreak w = true /\ History.isFinished w = false.
Proof. eexists. split; [reflexivity|]. split; reflexivity. Qed.

(** For every minute of a day, the binary64 quotient by 60000 of the
    first and of the last millisecond of the minute rounds down to the
    minute itself, as the integer division does. *)
Lemma minutes_of_ms_binary64 k :
  In k minutesOfDay -> minuteBoundsExact k = true.
Proof.
  revert k. apply forallb_forall. vm_compute. reflexivity.
Qed.


(* ================================================================== *)
(** ** The calendar, from day numbers to dates *)
(* ================================================================== *)

Section CalendarInverse.

Import JSDate DateSetters.

(** Every day of a 400-year era, checked by evaluation. *)
Lemma civilOk_all : forallb civilOkThousand (zrange 0 147) = true.
Proof. vm_compute. reflexivity. Qed.

Lemma civilOfDoe_valid doe :
  0 <= doe < 146097 ->
  exists yoe m d,
    civilOfDoe doe = (yoe, m, d) /\ 0 <= yoe < 400 /\ 1 <= m <= 12 /\
    1 <= d <= daysInMonth (yoe + janFeb m) m /\ doeOf yoe m d = doe.
Proof.
  intros H.
  pose proof (Z.div_mod doe 1000 ltac:(lia)) as Hdm.
  pose proof (Z.mod_pos_bound doe 1000 ltac:(lia)) as Hb.
  assert (Ha : 0 <= doe / 1000 < 147).
  { split; [apply Z.div_pos; lia|apply Z.div_lt_upper_bound; lia]. }
  pose proof (forallb_zrange civilOkThousand 0 147 civilOk_all (doe / 1000)
                ltac:(lia)) as Ct.
  pose proof (forallb_zrange _ 0 1000 Ct (doe mod 1000) ltac:(lia)) as C.
  cbv beta in C. rewrite <- Hdm in C.
  replace (146097 <=? doe) with false in C
    by (symmetry; apply Z.leb_gt; lia).
  cbn [orb] in C.
  unfold civilOk in C.
  destruct (civilOfDoe doe) as [[yoe m] d].
  rewrite !andb_true_iff in C.
  destruct C as [[[[[[C1 C2] C3] C4] C5] C6] C7].
  exists yoe, m, d. split; [reflexivity|].
  apply Z.leb_le in C1, C3, C4, C5, C6. apply Z.ltb_lt in C2.
  apply Z.eqb_eq in C7. lia.
Qed.

(** The date of a day number is a date of the calendar, and its day
    number is the one it was read from. *)
Lemma civil_from_days_valid z :
  exists y m d,
    civil_from_days z = (y, m, d) /\ 1 <= m <= 12 /\
    1 <= d <= daysInMonth y m /\ days_from_civil y m d = z.
Proof.
  set (z' := z + 719468).
  pose proof (Z.div_mod z' 146097 ltac:(lia)) as Hdm.
  pose proof (Z.mod_pos_bound z' 146097 ltac:(lia)) as Hb.
  destruct (civilOfDoe_valid (z' mod 146097) Hb)
    as (yoe & m & d & Hc & Hy & Hm & Hd & Hdoe).
  assert (Hz : z = z' / 146097 * 146097 + z' mod 146097 - 719468)
    by (unfold z' in *; lia).
  exists (yoe + z' / 146097 * 400 + janFeb m), m, d.
  split; [|split; [exact Hm|split]].
  - rewrite Hz at 1. rewrite civil_from_days_era by exact Hb.
    now rewrite Hc.
  - replace (yoe + z' / 146097 * 400 + janFeb m)
      with (z' / 146097 * 400 + (yoe + janFeb m)) by ring.
    unfold daysInMonth. rewrite isLeapYear_era. exact Hd.
  - rewrite days_from_civil_era.
    replace (yoe + z' / 146097 * 400 + janFeb m - janFeb m)
      with (yoe + z' / 146097 * 400) by ring.
    rewrite Z.div_add by lia. rewrite Z.mod_add by lia.
    rewrite Z.div_small, Z.mod_small by lia.
    rewrite Hdoe. lia.
Qed.

Lemma daysInMonth_ge_28 y m : 28 <= daysInMonth y m.
Proof.
  unfold daysInMonth.
  destruct (m =? 2); [destruct (isLeapYear y); lia|].
  destruct ((m =? 4) || (m =? 6) || (m =? 9) || (m =? 11)); lia.
Qed.

End CalendarInverse.

(* ================================================================== *)
(** ** Days, midnights and date strings *)
(* ================================================================== *)

Section LocalDays.

Import JSDate DateSetters DateStrings DateStringChecks MonthlyViews.

Lemma MakeDay_of_fields t dt :
  MakeDay (YearFromTime t) (MonthFromTime t) dt =
  Day t + (dt - DateFromTime t).
Proof.
  unfold YearFromTime, MonthFromTime, DateFromTime.
  destruct (civil_from_days_valid (Day t)) as (y & m & d & Hc & Hm & Hd & Hz).
  rewrite Hc. cbn [fst snd].
  rewrite MakeDay_in_year by lia.
  replace (m - 1 + 1) with m by lia.
  assert (E : days_from_civil y m dt = days_from_civil y m d + (dt - d))
    by (unfold days_from_civil; cbv zeta; lia).
  rewrite E, Hz. reflexivity.
Qed.

Lemma time_split t :
  t = MakeDate (Day t) (TimeWithinDay t) /\ 0 <= TimeWithinDay t < msPerDay.
Proof.
  unfold MakeDate, Day, TimeWithinDay.
  pose proof (Z.div_mod t msPerDay ltac:(unfold msPerDay; lia)).
  pose proof (Z.mod_pos_bound t msPerDay ltac:(unfold msPerDay; lia)).
  lia.
Qed.

(** [setDate(getDate() + n)] moves an instant by [n] whole days. *)
Lemma setDate_shift tza t n :
  setDate tza t (getDate tza t + n) = t + n * msPerDay.
Proof.
  unfold setDate, getDate. cbv zeta.
  rewrite MakeDay_of_fields.
  destruct (time_split (LocalTime tza t)) as [Hs _].
  unfold UTC, LocalTime, MakeDate in *. lia.
Qed.

(** [setHours(0, 0, 0, 0)] is the local midnight before the instant. *)
Lemma setHours_midnight tza t :
  setHours tza t 0 0 0 0 = t - TimeWithinDay (LocalTime tza t).
Proof.
  unfold setHours.
  destruct (time_split (LocalTime tza t)) as [Hs _].
  unfold UTC, LocalTime, MakeDate, MakeTime in *. lia.
Qed.

Lemma civil_from_days_inj a b :
  civil_from_days a = civil_from_days b -> a = b.
Proof.
  intros H.
  destruct (civil_from_days_valid a) as (y & m & d & Ha & _ & _ & Hza).
  destruct (civil_from_days_valid b) as (y' & m' & d' & Hb & _ & _ & Hzb).
  rewrite Ha, Hb in H. injection H as -> -> ->. lia.
Qed.

(** Two instants have the same date key exactly when they fall on the
    same local day. *)
Lemma same_date_key tza t u :
  (getFullYear tza t, getMonth tza t + 1, getDate tza t) =
  (getFullYear tza u, getMonth tza u + 1, getDate tza u) <->
  Day (LocalTime tza t) = Day (LocalTime tza u).
Proof.
  unfold getFullYear, getMonth, getDate, YearFromTime, MonthFromTime,
    DateFromTime.
  split.
  - intros H. apply civil_from_days_inj.
    destruct (civil_from_days (Day (LocalTime tza t))) as [[y m] d].
    destruct (civil_from_days (Day (LocalTime tza u))) as [[y' m'] d'].
    cbn [fst snd] in H. injection H as -> Hm ->.
    f_equal. f_equal. lia.
  - now intros ->.
Qed.

Lemma Day_eq_iff d t :
  Day t = d <-> d * msPerDay <= t < (d + 1) * msPerDay.
Proof.
  destruct (time_split t) as [Hs Hb]. unfold MakeDate in Hs.
  unfold msPerDay in *. split; intros H; [subst; lia|nia].
Qed.

End LocalDays.

(* ================================================================== *)
(** ** Today's records, the reload at midnight, the day of work *)
(* ================================================================== *)

Import JSDate DateSetters DateStrings DateStringChecks.

Lemma todayAndTomorrow_bounds tza now :
  MonthlyViews.todayAndTomorrow tza now =
  (UTC tza (MakeDate (Day (LocalTime tza now)) 0),
   UTC tza (MakeDate (Day (LocalTime tza now) + 1) 0)).
Proof.
  unfold MonthlyViews.todayAndTomorrow. cbv zeta.
  rewrite setDate_shift, setHours_midnight.
  destruct (time_split (LocalTime tza now)) as [Hs _].
  unfold UTC, LocalTime, MakeDate in *. f_equal; lia.
Qed.

(** [updateStats] (monthly.js) keeps as today's records exactly the
    records whose local calendar date is the date of [now]: the window
    from [today] to [tomorrow] is one local day, midnight to midnight. *)
Theorem todayRecords_same_calendar_day tza now allRecords r :
  In r (MonthlyViews.todayRecords tza now allRecords) <->
  In r allRecords /\
  dateKeyOf tza r =
  (getFullYear tza now, getMonth tza now + 1, getDate tza now).
Proof.
  unfold MonthlyViews.todayRecords. rewrite todayAndTomorrow_bounds.
  rewrite filter_In. unfold dateKeyOf. rewrite same_date_key.
  rewrite andb_true_iff, Z.leb_le, Z.ltb_lt.
  rewrite (Day_eq_iff (Day (LocalTime tza now)) (LocalTime tza (timestamp r))).
  unfold UTC, LocalTime, MakeDate. split; intros [H1 H2]; (split; [exact H1|lia]).
Qed.

(** [setupMidnightReload] (timecard-history.js), in any time zone.  If
    the same local time tomorrow is still on tomorrow's date when it is
    read back from UTC, and the coming local midnight is read back as
    itself (no change of the clocks falls on either), then the reload
    comes exactly on the next local midnight, and the delay is what is
    left of the local day plus the change of the offset over the wait:
    more than nothing and at most 24 hours when the offset stays as it
    is. *)
Theorem msUntilMidnight_is_rest_of_day offsetAtUTC offsetAtLocal now :
  let localNow := TimeCard.LocalTimeIn offsetAtUTC now in
  let midnight := MakeDate (Day localNow + 1) 0 in
  let wait := TimeCard.msUntilMidnight offsetAtUTC offsetAtLocal now in
  Day (TimeCard.LocalTimeIn offsetAtUTC
         (TimeCard.UTCIn offsetAtLocal (localNow + msPerDay))) =
  Day localNow + 1 ->
  TimeCard.LocalTimeIn offsetAtUTC (TimeCard.UTCIn offsetAtLocal midnight) =
  midnight ->
  TimeCard.LocalTimeIn offsetAtUTC (now + wait) = midnight /\
  wait = (msPerDay - TimeWithinDay localNow) +
         (offsetAtUTC now - offsetAtUTC (now + wait)) /\
  (offsetAtUTC (now + wait) = offsetAtUTC now -> 0 < wait <= msPerDay).
Proof.
  intros localNow midnight wait H1 H2.
  assert (E : wait = TimeCard.UTCIn offsetAtLocal midnight - now).
  { unfold wait, TimeCard.msUntilMidnight, TimeCard.setHoursIn,
      TimeCard.setDateIn, TimeCard.getDateIn. cbv zeta.
    fold localNow. rewrite MakeDay_of_fields.
    destruct (time_split localNow) as [Hs _].
    replace (MakeDate (Day localNow + (DateFromTime localNow + 1
                                       - DateFromTime localNow))
                      (TimeWithinDay localNow))
      with (localNow + msPerDay)
      by (unfold MakeDate in *; lia).
    rewrite H1. reflexivity. }
  assert (El : localNow = now + offsetAtUTC now) by reflexivity.
  assert (Em : midnight = (Day localNow + 1) * msPerDay)
    by (unfold midnight, MakeDate; lia).
  destruct (time_split localNow) as [Hs Hb]. unfold MakeDate in Hs.
  unfold TimeCard.LocalTimeIn in H2 |- *.
  replace (now + wait) with (TimeCard.UTCIn offsetAtLocal midnight)
    by (rewrite E; lia).
  set (v := TimeCard.UTCIn offsetAtLocal midnight) in *.
  clearbody v wait midnight localNow.
  split; [exact H2|]. split; [lia|]. intros Ho. lia.
Qed.

Lemma msUntilMidnight_is_rest_of_day_witness :
  TimeCard.msUntilMidnight TimeCard.newYorkAtUTC TimeCard.newYorkAtLocal
    (MakeDate (days_from_civil 2025 11 2) (4 * msPerHour + 30 * msPerMinute))
  = 24 * msPerHour + 30 * msPerMinute.
Proof.
  destruct (msUntilMidnight_is_rest_of_day
              TimeCard.newYorkAtUTC TimeCard.newYorkAtLocal
              (MakeDate (days_from_civil 2025 11 2)
                        (4 * msPerHour + 30 * msPerMinute)))
    as (_ & H & _).
  - vm_compute. reflexivity.
  - vm_compute. reflexivity.
  - rewrite H. vm_compute. reflexivity.
Defined.

(** The [workDate] that the monthly loop rebuilds from a date key is the
    local midnight of the day of every record filed under that key, so
    the holiday flag of a day is the weekend test of the day of its
    records (monthly.js, the loop over the days and [isHoliday]). *)
Theorem workDate_is_the_day_of_the_record tza r :
  100 <= getFullYear tza (timestamp r) ->
  (let '(year, month, day) := dateKeyOf tza r in
   newDate tza year (month - 1) day = setHours tza (timestamp r) 0 0 0 0 /\
   isHoliday tza (newDate tza year (month - 1) day) =
   isHoliday tza (timestamp r)).
Proof.
  intros Hy. unfold dateKeyOf. cbv zeta.
  assert (E : newDate tza (getFullYear tza (timestamp r))
                (getMonth tza (timestamp r) + 1 - 1) (getDate tza (timestamp r))
              = setHours tza (timestamp r) 0 0 0 0).
  { unfold newDate, newDate7. cbv zeta. rewrite (fullYear_100 _ Hy).
    replace (getMonth tza (timestamp r) + 1 - 1)
      with (getMonth tza (timestamp r)) by lia.
    unfold getFullYear, getMonth, getDate. rewrite MakeDay_of_fields.
    unfold setHours. f_equal. f_equal. lia. }
  split; [exact E|]. rewrite E.
  unfold isHoliday, getDay, WeekDay. rewrite setHours_midnight.
  destruct (time_split (LocalTime tza (timestamp r))) as [Hs Hb].
  assert (D : Day (LocalTime tza
                     (timestamp r - TimeWithinDay (LocalTime tza (timestamp r))))
              = Day (LocalTime tza (timestamp r))).
  { apply Day_eq_iff. unfold LocalTime, MakeDate in *. lia. }
  now rewrite D.
Qed.

Lemma workDate_is_the_day_of_the_record_witness :
  100 <= getFullYear jst (timestamp (punch clock_in 9 0)) /\
  isHoliday jst (newDate jst 2025 (1 - 1) 6) =
  isHoliday jst (timestamp (punch clock_in 9 0)).
Proof.
  split; [vm_compute; discriminate|].
  apply (workDate_is_the_day_of_the_record jst (punch clock_in 9 0)).
  vm_compute. discriminate.
Defined.

(* ================================================================== *)
(** ** Date strings read back *)
(* ================================================================== *)

Section DateStringFacts.

Import MonthlyViews.

Lemma split_no_sep c s : containsChar c s = false -> split c s = [s].
Proof.
  induction s as [|a s IH]; simpl; [reflexivity|].
  intros H. apply orb_false_iff in H. destruct H as [Ha Hs].
  rewrite Ha, (IH Hs). reflexivity.
Qed.

Lemma split_app_sep c a b :
  containsChar c a = false ->
  split c (a ++ String c b) = a :: split c b.
Proof.
  induction a as [|x a IH]; simpl; intros H.
  - now rewrite Ascii.eqb_refl.
  - apply orb_false_iff in H. destruct H as [Hx Ha].
    rewrite Hx, (IH Ha). reflexivity.
Qed.

Lemma years_1000_read_back :
  forallb yearReadsBack (zrange 1000 4500) = true.
Proof. vm_compute. reflexivity. Qed.

Lemma years_5500_read_back :
  forallb yearReadsBack (zrange 5500 4500) = true.
Proof. vm_compute. reflexivity. Qed.

Lemma two_digits_read_back :
  forallb twoDigitsReadBack (zrange 1 31) = true.
Proof. vm_compute. reflexivity. Qed.

Lemma readsBack_spec n s v :
  readsBack n s v = true ->
  containsChar "-" s = false /\ isDigits n s = true /\ Number s = Some v.
Proof.
  unfold readsBack. rewrite !andb_true_iff, negb_true_iff.
  intros [[H1 H2] H3]. repeat split; try assumption.
  destruct (Number s) as [w|]; [|discriminate].
  apply Z.eqb_eq in H3. now subst.
Qed.

Lemma year_reads_back y :
  1000 <= y <= 9999 -> yearReadsBack y = true.
Proof.
  intros H. destruct (Z_lt_le_dec y 5500).
  - apply (forallb_zrange yearReadsBack 1000 4500 years_1000_read_back). lia.
  - apply (forallb_zrange yearReadsBack 5500 4500 years_5500_read_back). lia.
Qed.

(** The fields of a date string of [formatDateForInput]. *)
Lemma split_formatYMD y m d :
  1000 <= y <= 9999 -> 1 <= m <= 31 -> 1 <= d <= 31 ->
  split "-"%char (formatYMD y m d) =
  [StringOfNumber y; padStart2 (StringOfNumber m);
   padStart2 (StringOfNumber d)].
Proof.
  intros Hy Hm Hd.
  destruct (readsBack_spec _ _ _ (year_reads_back y Hy)) as (Cy & _ & _).
  destruct (readsBack_spec _ _ _
              (forallb_zrange _ 1 31 two_digits_read_back m ltac:(lia)))
    as (Cm & _ & _).
  destruct (readsBack_spec _ _ _
              (forallb_zrange _ 1 31 two_digits_read_back d ltac:(lia)))
    as (Cd & _ & _).
  unfold formatYMD.
  change ("-" ++ ?x)%string with (String "-"%char x).
  rewrite (split_app_sep _ _ _ Cy).
  change ("-" ++ ?x)%string with (String "-"%char x).
  rewrite (split_app_sep _ _ _ Cm), (split_no_sep _ _ Cd). reflexivity.
Qed.

(** [new Date(s)] of a date string of [formatDateForInput] is midnight
    UTC of that date. *)
Lemma parseDateOnly_formatYMD y m d :
  1000 <= y <= 9999 -> 1 <= m <= 12 -> 1 <= d <= 31 ->
  parseDateOnly (formatYMD y m d) =
  Some (JSDate.MakeDate (JSDate.MakeDay y (m - 1) d) 0).
Proof.
  intros Hy Hm Hd. unfold parseDateOnly.
  rewrite split_formatYMD by lia.
  destruct (readsBack_spec _ _ _ (year_reads_back y Hy)) as (_ & Dy & Ny).
  destruct (readsBack_spec _ _ _
              (forallb_zrange _ 1 31 two_digits_read_back m ltac:(lia)))
    as (_ & Dm & Nm).
  destruct (readsBack_spec _ _ _
              (forallb_zrange _ 1 31 two_digits_read_back d ltac:(lia)))
    as (_ & Dd & Nd).
  rewrite Dy, Dm, Dd, Ny, Nm, Nd. cbn [andb].
  replace ((1 <=? m) && (m <=? 12) && (1 <=? d) && (d <=? 31)) with true;
    [reflexivity|].
  symmetry. rewrite !andb_true_iff, !Z.leb_le. lia.
Qed.


Lemma formatYMD_truthy y m d : truthyString (formatYMD y m d) = true.
Proof.
  unfold formatYMD.
  destruct (StringOfNumber y); [|reflexivity].
  reflexivity.
Qed.

End DateStringFacts.

(* ================================================================== *)
(** ** The day view and the custom period *)
(* ================================================================== *)

Section DayViews.

Import MonthlyViews.

Lemma Day_of_shifted_midnight D tza :
  (0 <= tza < msPerDay -> Day (MakeDate D 0 + tza) = D) /\
  (- msPerDay <= tza < 0 -> Day (MakeDate D 0 + tza) = D - 1).
Proof.
  split; intros H; apply Day_eq_iff; unfold MakeDate, msPerDay in *; lia.
Qed.

Lemma dateAt_formatYMD tza y m d h mi sec ms :
  1000 <= y <= 9999 -> 1 <= m <= 12 -> 1 <= d <= daysInMonth y m ->
  dateAt tza (formatYMD y m d) h mi sec ms =
  Some (UTC tza (MakeDate (Day (MakeDate (days_from_civil y m d) 0 + tza))
                          (MakeTime h mi sec ms))).
Proof.
  intros Hy Hm Hd. unfold dateAt.
  pose proof (daysInMonth_le_31 y m).
  rewrite parseDateOnly_formatYMD by lia.
  rewrite MakeDay_in_year by lia.
  replace (m - 1 + 1) with m by lia. reflexivity.
Qed.

End DayViews.

Lemma dayRange_formatYMD tza y m d :
  1000 <= y <= 9999 -> 1 <= m <= 12 -> 1 <= d <= daysInMonth y m ->
  (0 <= tza < msPerDay ->
   MonthlyViews.dayRange tza (formatYMD y m d) =
   (Some (localMidnight tza y m d),
    Some (localMidnight tza y m d + msPerDay - 1))) /\
  (- msPerDay <= tza < 0 ->
   MonthlyViews.dayRange tza (formatYMD y m d) =
   (Some (localMidnight tza y m d - msPerDay),
    Some (localMidnight tza y m d - 1))).
Proof.
  intros Hy Hm Hd. unfold MonthlyViews.dayRange.
  rewrite !dateAt_formatYMD by assumption.
  destruct (Day_of_shifted_midnight (days_from_civil y m d) tza) as [E W].
  unfold localMidnight.
  split; intros Hz; [rewrite (E Hz)|rewrite (W Hz)];
    unfold UTC, MakeDate, MakeTime, msPerDay, msPerHour, msPerMinute,
      msPerSecond; apply f_equal2; apply f_equal; lia.
Qed.

(** [applyFilters], and [loadRecords] when it keeps the date of the
    filters (monthly.js), read the date string as midnight UTC and then
    set local hours: at or east of Greenwich the range queried is the
    local day of the date entered, midnight to 23:59:59.999; west of
    Greenwich it is the local day before.  [loadRecords] without kept
    filters starts from the current instant instead and queries the
    local day of that instant, in every zone.  [applyFilters] queries
    nothing on an empty date. *)
Theorem dayRange_is_a_local_day tza now y m d :
  1000 <= y <= 9999 -> 1 <= m <= 12 -> 1 <= d <= daysInMonth y m ->
  (0 <= tza < msPerDay ->
   MonthlyViews.applyFiltersRange tza (formatYMD y m d) =
   Some (Some (localMidnight tza y m d),
         Some (localMidnight tza y m d + msPerDay - 1)) /\
   MonthlyViews.loadRecordsRange tza now true (formatYMD y m d) =
   (Some (localMidnight tza y m d),
    Some (localMidnight tza y m d + msPerDay - 1))) /\
  (- msPerDay <= tza < 0 ->
   MonthlyViews.applyFiltersRange tza (formatYMD y m d) =
   Some (Some (localMidnight tza y m d - msPerDay),
         Some (localMidnight tza y m d - 1)) /\
   MonthlyViews.loadRecordsRange tza now true (formatYMD y m d) =
   (Some (localMidnight tza y m d - msPerDay),
    Some (localMidnight tza y m d - 1))) /\
  (forall kept,
      MonthlyViews.loadRecordsRange tza now false kept =
      (Some (UTC tza (MakeDate (Day (LocalTime tza now)) 0)),
       Some (UTC tza (MakeDate (Day (LocalTime tza now)) 0)
             + msPerDay - 1))) /\
  MonthlyViews.applyFiltersRange tza EmptyString = None.
Proof.
  intros Hy Hm Hd.
  destruct (dayRange_formatYMD tza y m d Hy Hm Hd) as [RE RW].
  unfold MonthlyViews.applyFiltersRange, MonthlyViews.loadRecordsRange.
  rewrite formatYMD_truthy. cbn [negb andb truthyString].
  split; [intros Hz; now rewrite (RE Hz)|].
  split; [intros Hz; now rewrite (RW Hz)|].
  split; [|reflexivity].
  intros kept. cbv zeta. unfold setHours.
  replace (Day (LocalTime tza (UTC tza (MakeDate (Day (LocalTime tza now))
                                                 (MakeTime 0 0 0 0)))))
    with (Day (LocalTime tza now)).
  - unfold UTC, MakeDate, MakeTime, msPerDay, msPerHour, msPerMinute,
      msPerSecond. apply f_equal2; apply f_equal; lia.
  - symmetry. unfold LocalTime at 1, UTC.
    replace (MakeDate (Day (LocalTime tza now)) (MakeTime 0 0 0 0) - tza + tza)
      with (MakeDate (Day (LocalTime tza now)) 0)
      by (unfold MakeDate, MakeTime; lia).
    apply Day_MakeDate. unfold msPerDay. lia.
Qed.

Lemma dayRange_is_a_local_day_witness :
  MonthlyViews.applyFiltersRange jst (formatYMD 2025 1 6) =
  Some (Some (localMidnight jst 2025 1 6),
        Some (localMidnight jst 2025 1 6 + msPerDay - 1)).
Proof.
  destruct (dayRange_is_a_local_day jst 0 2025 1 6) as (H & _).
  - lia.
  - lia.
  - vm_compute. split; discriminate.
  - apply H. vm_compute. split; [discriminate|reflexivity].
Defined.

(** The custom period of [calculateMonthlySummary] (monthly.js), at or
    east of Greenwich: two dates give the period from the first local
    midnight to the last millisecond of the last day, a single day
    included, unless the end date is before the start date; an empty
    input gives no period. *)
Theorem customPeriod_covers_both_days tza y1 m1 d1 y2 m2 d2 :
  0 <= tza < msPerDay ->
  1000 <= y1 <= 9999 -> 1 <= m1 <= 12 -> 1 <= d1 <= daysInMonth y1 m1 ->
  1000 <= y2 <= 9999 -> 1 <= m2 <= 12 -> 1 <= d2 <= daysInMonth y2 m2 ->
  MonthlyViews.customPeriod tza (formatYMD y1 m1 d1) (formatYMD y2 m2 d2) =
  (if days_from_civil y2 m2 d2 <? days_from_civil y1 m1 d1
   then MonthlyViews.StartAfterEnd
   else MonthlyViews.Period
          (Some (localMidnight tza y1 m1 d1))
          (Some (localMidnight tza y2 m2 d2 + msPerDay - 1))) /\
  MonthlyViews.customPeriod tza EmptyString (formatYMD y2 m2 d2) =
  MonthlyViews.NeedBothDates /\
  MonthlyViews.customPeriod tza (formatYMD y1 m1 d1) EmptyString =
  MonthlyViews.NeedBothDates.
Proof.
  intros Hz Hy1 Hm1 Hd1 Hy2 Hm2 Hd2.
  split; [|split; [reflexivity|]].
  - unfold MonthlyViews.customPeriod. rewrite !formatYMD_truthy. cbn [negb orb].
    cbv zeta. rewrite !dateAt_formatYMD by assumption.
    destruct (Day_of_shifted_midnight (days_from_civil y1 m1 d1) tza) as [E1 _].
    destruct (Day_of_shifted_midnight (days_from_civil y2 m2 d2) tza) as [E2 _].
    rewrite (E1 Hz), (E2 Hz). unfold localMidnight.
    assert (T : MakeTime 23 59 59 999 = msPerDay - 1) by reflexivity.
    assert (T0 : MakeTime 0 0 0 0 = 0) by reflexivity.
    rewrite T, T0.
    destruct (days_from_civil y2 m2 d2 <? days_from_civil y1 m1 d1) eqn:C.
    + apply Z.ltb_lt in C.
      replace (_ <? _) with true; [reflexivity|].
      symmetry. apply Z.ltb_lt.
      unfold UTC, MakeDate, msPerDay in *. lia.
    + apply Z.ltb_ge in C.
      replace (_ <? _) with false.
      * unfold UTC, MakeDate. apply f_equal2; apply f_equal; lia.
      * symmetry. apply Z.ltb_ge. unfold UTC, MakeDate, msPerDay in *. lia.
  - unfold MonthlyViews.customPeriod. rewrite formatYMD_truthy. reflexivity.
Qed.

Lemma customPeriod_covers_both_days_witness :
  MonthlyViews.customPeriod jst (formatYMD 2025 1 6) (formatYMD 2025 1 6) =
  MonthlyViews.Period (Some (localMidnight jst 2025 1 6))
                      (Some (localMidnight jst 2025 1 6 + msPerDay - 1)).
Proof.
  apply (customPeriod_covers_both_days jst 2025 1 6 2025 1 6); vm_compute;
    split; discriminate || reflexivity.
Defined.



(* ================================================================== *)
(** ** Thresholds of a day *)
(* ================================================================== *)

Lemma calculateDayWorkData_some tza rs cfg date d :
  calculateDayWorkData tza rs cfg date = Some d ->
  exists cin cout,
    find (hasType clock_in) rs = Some cin /\
    find (hasType clock_out) rs = Some cout.
Proof.
  unfold calculateDayWorkData.
  destruct (find (hasType clock_in) rs) as [cin|]; [|discriminate].
  destruct (find (hasType clock_out) rs) as [cout|]; [|discriminate].
  intros _. now exists cin, cout.
Qed.

Lemma floor_minutes_bounds x :
  0 <= x -> 60000 * (x / 60000) <= x < 60000 * (x / 60000 + 1).
Proof.
  intros H. pose proof (Z.div_mod x 60000 ltac:(lia)).
  pose proof (Z.mod_pos_bound x 60000 ltac:(lia)). lia.
Qed.

Lemma atTimeOfDay_clip tza t hm h m :
  parseHM hm = Some (h, m) ->
  atTimeOfDay tza t hm =
  if Z.abs (JSDate.setHours tza t h m 0 0) <=? JSDate.maxTime
  then Some (JSDate.setHours tza t h m 0 0) else None.
Proof. intros H. unfold atTimeOfDay. now rewrite H. Qed.

Lemma whole_minutes_of_delay x :
  (0 < Z.max 0 (x / 60000) <-> 60000 <= x) /\
  60000 * Z.max 0 (x / 60000) <= Z.max 0 x < 60000 * (Z.max 0 (x / 60000) + 1).
Proof.
  destruct (Z_le_gt_dec 0 x) as [L|L].
  - pose proof (floor_minutes_bounds _ L).
    assert (0 <= x / 60000) by (apply Z.div_pos; lia).
    rewrite !Z.max_r by lia. split; [split|]; lia.
  - assert (x / 60000 < 0) by (apply Z.div_lt_upper_bound; lia).
    rewrite !Z.max_l by lia. split; [split|]; lia.
Qed.

(** Lateness and early leave are counted in whole minutes
    ([calculateDayWorkData], monthly.js), for a scheduled start and end
    written as digits, hours:minutes.  While the time set on the day of
    the clock-in (clock-out) is within the range of [Date], the day is
    late only from one full minute after the scheduled start, and an
    early leave only from one full minute before the scheduled end; the
    minutes are the whole minutes of the delay, never negative.  Beyond
    that range the scheduled time is an invalid date, and the day is
    neither late nor an early leave. *)
Theorem late_and_early_need_a_full_minute
        tza rs cfg date cin cout d sh sm eh em :
  find (hasType clock_in) rs = Some cin ->
  find (hasType clock_out) rs = Some cout ->
  calculateDayWorkData tza rs cfg date = Some d ->
  parseHM (stringOr cfg startTime DEFAULT_startTime) = Some (sh, sm) ->
  parseHM (stringOr cfg endTime DEFAULT_endTime) = Some (eh, em) ->
  let start := JSDate.setHours tza (timestamp cin) sh sm 0 0 in
  let stop := JSDate.setHours tza (timestamp cout) eh em 0 0 in
  (Z.abs start <= JSDate.maxTime ->
   (isLate d = true <-> start + 60000 <= timestamp cin) /\
   60000 * lateMinutes d <= Z.max 0 (timestamp cin - start)
     < 60000 * (lateMinutes d + 1)) /\
  (JSDate.maxTime < Z.abs start -> isLate d = false /\ lateMinutes d = 0) /\
  (Z.abs stop <= JSDate.maxTime ->
   (isEarlyLeave d = true <-> timestamp cout + 60000 <= stop) /\
   60000 * earlyLeaveMinutes d <= Z.max 0 (stop - timestamp cout)
     < 60000 * (earlyLeaveMinutes d + 1)) /\
  (JSDate.maxTime < Z.abs stop ->
   isEarlyLeave d = false /\ earlyLeaveMinutes d = 0).
Proof.
  intros Hin Hout Hd Hs He start stop.
  destruct (calculateDayWorkData_complete tza rs cfg date cin cout Hin Hout)
    as (d' & Hd' & _ & _ & Hl & Hil & Hel & Hiel & _).
  rewrite Hd in Hd'. injection Hd' as <-.
  rewrite (atTimeOfDay_clip _ _ _ _ _ Hs) in Hl.
  rewrite (atTimeOfDay_clip _ _ _ _ _ He) in Hel.
  fold start in Hl. fold stop in Hel.
  rewrite Hil, Hiel.
  split; [|split; [|split]].
  - intros R. apply Z.leb_le in R. rewrite R in Hl. rewrite Hl, Z.ltb_lt.
    destruct (whole_minutes_of_delay (timestamp cin - start)) as [A B].
    split; [rewrite A; lia|exact B].
  - intros R. apply Z.leb_gt in R. rewrite R in Hl. now rewrite Hl.
  - intros R. apply Z.leb_le in R. rewrite R in Hel. rewrite Hel, Z.ltb_lt.
    destruct (whole_minutes_of_delay (stop - timestamp cout)) as [A B].
    split; [rewrite A; lia|exact B].
  - intros R. apply Z.leb_gt in R. rewrite R in Hel. now rewrite Hel.
Qed.

Lemma late_and_early_need_a_full_minute_witness :
  exists d,
    calculateDayWorkData jst [punchOn 9 clock_in 9 20; punchOn 9 clock_out 17 0]
      (Some nineToSix) None = Some d /\
    (isLate d = true <->
     JSDate.setHours jst (timestamp (punchOn 9 clock_in 9 20)) 9 0 0 0 + 60000
     <= timestamp (punchOn 9 clock_in 9 20)).
Proof.
  eexists. split; [reflexivity|].
  destruct (late_and_early_need_a_full_minute jst
              [punchOn 9 clock_in 9 20; punchOn 9 clock_out 17 0]
              (Some nineToSix) None (punchOn 9 clock_in 9 20)
              (punchOn 9 clock_out 17 0) _ 9 0 18 0
              eq_refl eq_refl eq_refl eq_refl eq_refl) as (H & _).
  apply H. vm_compute. discriminate.
Defined.

(* ================================================================== *)
(** ** Counters and PCs of the monthly loop *)
(* ================================================================== *)

Section LoopFacts.

Import LoopInvariants.

Variable tza : Z.
Variable cfg : EmployeeConfig.

Lemma calculateDayWorkData_flags rs c date d :
  calculateDayWorkData tza rs c date = Some d ->
  isLate d = (0 <? lateMinutes d) /\
  isEarlyLeave d = (0 <? earlyLeaveMinutes d).
Proof.
  intros Hd.
  destruct (calculateDayWorkData_some _ _ _ _ _ Hd) as (cin & cout & Hin & Hout).
  destruct (calculateDayWorkData_complete tza rs c date cin cout Hin Hout)
    as (d' & Hd' & _ & _ & _ & Hil & _ & Hiel & _).
  rewrite Hd in Hd'. injection Hd' as <-. now split.
Qed.

Lemma dayStep_countersOk n entry s :
  countersOk n s -> countersOk (n + 1) (fst (dayStep tza cfg entry s)).
Proof.
  unfold countersOk. intros H.
  destruct entry as [[[y m] d] rs]. unfold dayStep.
  destruct (existsb (hasType paid_leave) rs); [cbn; lia|].
  destruct (existsb (hasType absence) rs); [cbn; lia|].
  destruct (calculateDayWorkData tza (sortByTimestamp rs) (Some cfg) _)
    as [day|] eqn:Hd; [|cbn; lia].
  destruct (calculateDayWorkData_flags _ _ _ _ Hd) as [Hl He].
  cbn. rewrite Hl, He.
  destruct (0 <? lateMinutes day) eqn:L;
    destruct (0 <? earlyLeaveMinutes day) eqn:E;
    destruct (isHolidayWork day);
    rewrite ?Z.ltb_lt in L; rewrite ?Z.ltb_lt in E; lia.
Qed.

Lemma summarizeDays_countersOk m : forall n s,
  countersOk n s ->
  countersOk (n + Z.of_nat (List.length m)) (fst (summarizeDays tza cfg m s)).
Proof.
  induction m as [|e m IH]; intros n s H.
  - cbn. now rewrite Z.add_0_r.
  - rewrite summarizeDays_cons.
    replace (n + Z.of_nat (List.length (e :: m)))
      with (n + 1 + Z.of_nat (List.length m)) by (cbn [List.length]; lia).
    apply IH. now apply dayStep_countersOk.
Qed.

(* PCs *)

Lemma eqb_existsb_In id pcs :
  existsb (String.eqb id) pcs = true <-> In id pcs.
Proof.
  rewrite existsb_exists. split.
  - intros (x & Hx & E). apply String.eqb_eq in E. now subst.
  - intros H. exists id. split; [assumption|apply String.eqb_refl].
Qed.

Lemma setAdd_In id x pcs : In x (setAdd id pcs) <-> In x pcs \/ x = id.
Proof.
  unfold setAdd. destruct (existsb (String.eqb id) pcs) eqn:E.
  - apply eqb_existsb_In in E. split; [tauto|intros [H| ->]; assumption].
  - rewrite in_app_iff. cbn. intuition.
Qed.

Lemma setAdd_NoDup id pcs : NoDup pcs -> NoDup (setAdd id pcs).
Proof.
  intros H. unfold setAdd.
  destruct (existsb (String.eqb id) pcs) eqn:E; [assumption|].
  apply NoDup_app; [assumption|repeat constructor; intros []|].
  intros x Hx [<-|[]].
  apply eqb_existsb_In in Hx. congruence.
Qed.

Lemma truthyString_iff s : truthyString s = true <-> s <> EmptyString.
Proof. destruct s; cbn; split; congruence. Qed.

Lemma collectPCs_spec rs : forall s,
  (NoDup (usedPCs s) -> NoDup (usedPCs (collectPCs rs s))) /\
  (forall id, In id (usedPCs (collectPCs rs s)) <->
              In id (usedPCs s) \/ exists r, In r rs /\ namesPC id r).
Proof.
  unfold collectPCs. cbn [usedPCs].
  intros s. generalize (usedPCs s) as acc. clear s.
  induction rs as [|r rs IH]; intros acc; cbn [fold_left].
  - split; [tauto|]. intros id. split; [tauto|].
    intros [H|(r & [] & _)]. exact H.
  - set (acc' := match pcIdentifier r with
                 | Some id => if truthyString id then setAdd id acc else acc
                 | None => acc
                 end).
    destruct (IH acc') as [IHn IHi]. split.
    + intros H. apply IHn. unfold acc'.
      destruct (pcIdentifier r) as [id|]; [|exact H].
      destruct (truthyString id); [now apply setAdd_NoDup|exact H].
    + intros id. rewrite IHi. unfold acc', namesPC.
      destruct (pcIdentifier r) as [id'|] eqn:P.
      * destruct (truthyString id') eqn:T.
        -- rewrite setAdd_In. apply truthyString_iff in T. split.
           ++ intros [[H| ->]|(r' & Hr' & Hn)];
                [now left| |right; exists r'; cbn; tauto].
              right. exists r. cbn. tauto.
           ++ intros [H|(r' & [<-|Hr'] & Hp & Hn)]; [tauto| |].
              ** rewrite P in Hp. injection Hp as ->. tauto.
              ** right. exists r'. tauto.
        -- split.
           ++ intros [H|(r' & Hr' & Hn)]; [now left|].
              right. exists r'. cbn. tauto.
           ++ intros [H|(r' & [<-|Hr'] & Hp & Hn)]; [tauto| |].
              ** rewrite P in Hp. injection Hp as ->.
                 apply truthyString_iff in Hn. congruence.
              ** right. exists r'. tauto.
      * split.
        -- intros [H|(r' & Hr' & Hn)]; [now left|].
           right. exists r'. cbn. tauto.
        -- intros [H|(r' & [<-|Hr'] & Hp & Hn)]; [tauto|congruence|].
           right. exists r'. tauto.
Qed.

Lemma dayStep_usedPCs entry s :
  (NoDup (usedPCs s) -> NoDup (usedPCs (fst (dayStep tza cfg entry s)))) /\
  (forall id, In id (usedPCs (fst (dayStep tza cfg entry s))) <->
              In id (usedPCs s) \/ dayNamesPC id entry).
Proof.
  destruct entry as [key rs]. unfold dayNamesPC. cbn [snd].
  destruct (existsb (hasType paid_leave) rs) eqn:E1.
  { rewrite dayStep_paid_leave by assumption. cbn.
    split; [tauto|]. intros id. split; [tauto|].
    intros [H|(H & _)]; [exact H|discriminate]. }
  destruct (existsb (hasType absence) rs) eqn:E2.
  { rewrite dayStep_absence by assumption. cbn.
    split; [tauto|]. intros id. split; [tauto|].
    intros [H|(_ & H & _)]; [exact H|discriminate]. }
  rewrite dayStep_clocks by assumption. destruct key as [[y m] d].
  cbv zeta. cbn [fst].
  set (s1 := match calculateDayWorkData tza (sortByTimestamp rs) _ _ with
             | Some dayData => countWorkDay dayData s
             | None => s
             end).
  assert (Hs1 : usedPCs s1 = usedPCs s).
  { unfold s1. now destruct (calculateDayWorkData _ _ _ _). }
  destruct (collectPCs_spec (sortByTimestamp rs) s1) as [Hn Hi].
  rewrite Hs1 in Hn, Hi. split; [exact Hn|].
  intros id. rewrite Hi. split.
  - intros [H|(r & Hr & Hp)]; [now left|]. right.
    repeat split. exists r. split; [|exact Hp].
    eapply Permutation_in; [apply Permutation_sym, sortByTimestamp_perm|exact Hr].
  - intros [H|(_ & _ & r & Hr & Hp)]; [now left|]. right.
    exists r. split; [|exact Hp].
    eapply Permutation_in; [apply sortByTimestamp_perm|exact Hr].
Qed.

Lemma summarizeDays_usedPCs m : forall s,
  (NoDup (usedPCs s) -> NoDup (usedPCs (fst (summarizeDays tza cfg m s)))) /\
  (forall id, In id (usedPCs (fst (summarizeDays tza cfg m s))) <->
              In id (usedPCs s) \/ exists entry, In entry m /\ dayNamesPC id entry).
Proof.
  induction m as [|e m IH]; intros s.
  - cbn. split; [tauto|]. intros id. split; [tauto|].
    intros [H|(x & [] & _)]. exact H.
  - rewrite summarizeDays_cons.
    destruct (dayStep_usedPCs e s) as [Dn Di].
    destruct (IH (fst (dayStep tza cfg e s))) as [Sn Si].
    split; [tauto|]. intros id. rewrite Si, Di. split.
    + intros [[H|H]|(x & Hx & Hp)]; [now left| |].
      * right. exists e. split; [now left|exact H].
      * right. exists x. split; [now right|exact Hp].
    + intros [H|(x & [<-|Hx] & Hp)]; [tauto|tauto|].
      right. exists x. tauto.
Qed.

End LoopFacts.

(** The counters of the monthly loop ([calculateMonthlySummary],
    monthly.js) stay consistent: a day is counted at most once among
    working, paid-leave and absence days, late, early-leave and holiday
    days are working days, and every late or early day brings at least
    one minute to its total. *)
Theorem summary_counters_consistent tza cfg m :
  LoopInvariants.countersOk (Z.of_nat (List.length m))
    (fst (summarizeDays tza cfg m emptySummary)).
Proof.
  apply (summarizeDays_countersOk tza cfg m 0 emptySummary).
  unfold LoopInvariants.countersOk. cbn. lia.
Qed.

(** [usedPCs] of the monthly loop lists, each once, the non-empty PC
    identifiers found on the records of the days without paid leave or
    absence; the identifiers of a leave or absence day are not
    collected unless another day has them. *)
Theorem usedPCs_are_those_of_clock_days tza cfg m id :
  NoDup (usedPCs (fst (summarizeDays tza cfg m emptySummary))) /\
  (In id (usedPCs (fst (summarizeDays tza cfg m emptySummary))) <->
   exists key rs r,
     In (key, rs) m /\
     existsb (hasType paid_leave) rs = false /\
     existsb (hasType absence) rs = false /\
     In r rs /\ pcIdentifier r = Some id /\ id <> EmptyString).
Proof.
  destruct (summarizeDays_usedPCs tza cfg m emptySummary) as [Hn Hi].
  split; [apply Hn; constructor|].
  rewrite Hi. cbn [usedPCs emptySummary]. split.
  - intros [[]|([key rs] & He & H1 & H2 & r & Hr & Hp & Hne)].
    exists key, rs, r. cbn [snd] in *. tauto.
  - intros (key & rs & r & He & H1 & H2 & Hr & Hp & Hne).
    right. exists (key, rs). split; [exact He|].
    unfold LoopInvariants.dayNamesPC, LoopInvariants.namesPC. cbn [snd].
    split; [exact H1|]. split; [exact H2|]. exists r. tauto.
Qed.

(* ================================================================== *)
(** ** Grouping the records by day *)
(* ================================================================== *)

Section Grouping.

Import LoopInvariants.

Variable tza : Z.

Lemma DateKey_eqb_eq a b : DateKey_eqb a b = true <-> a = b.
Proof.
  destruct a as [[y1 m1] d1], b as [[y2 m2] d2]. unfold DateKey_eqb.
  rewrite !andb_true_iff, !Z.eqb_eq. split.
  - intros [[-> ->] ->]. reflexivity.
  - intros [= -> -> ->]. tauto.
Qed.

Lemma DateKey_eqb_neq a b : DateKey_eqb a b = false <-> a <> b.
Proof.
  rewrite <- DateKey_eqb_eq. destruct (DateKey_eqb a b); split; congruence.
Qed.

Lemma pushRecord_keys key r m :
  map fst (pushRecord key r m) =
  if existsb (fun k => DateKey_eqb k key) (map fst m) then map fst m
  else map fst m ++ [key].
Proof.
  induction m as [|[k rs] m IH]; cbn; [reflexivity|].
  destruct (DateKey_eqb k key); cbn; [reflexivity|].
  rewrite IH. now destruct (existsb _ (map fst m)).
Qed.

Lemma pushRecord_In key r m k rs :
  NoDup (map fst m) ->
  In (k, rs) (pushRecord key r m) ->
  (k <> key /\ In (k, rs) m) \/
  (k = key /\ ((exists rs0, In (key, rs0) m /\ rs = rs0 ++ [r]) \/
               (~ In key (map fst m) /\ rs = [r]))).
Proof.
  induction m as [|[k0 rs0] m IH]; cbn; intros Hnd H.
  - destruct H as [[= <- <-]|[]]. right. split; [reflexivity|]. right. tauto.
  - inversion Hnd as [|? ? Hni Hnd']; subst.
    destruct (DateKey_eqb k0 key) eqn:E.
    + apply DateKey_eqb_eq in E. subst k0.
      destruct H as [[= <- <-]|H].
      * right. split; [reflexivity|]. left. exists rs0. tauto.
      * left. split; [|now right].
        intros ->. apply Hni. apply (in_map fst) in H. exact H.
    + apply DateKey_eqb_neq in E.
      destruct H as [[= <- <-]|H].
      * left. split; [exact E|now left].
      * destruct (IH Hnd' H) as [[Hk Hin]|[-> [(rs1 & Hin & ->)|[Hni' ->]]]].
        -- left. tauto.
        -- right. split; [reflexivity|]. left. exists rs1. tauto.
        -- right. split; [reflexivity|]. right. split; [|reflexivity].
           intros [Hc|Hc]; [now apply E|now apply Hni'].
Qed.

Lemma existsb_key_In key keys :
  existsb (fun k => DateKey_eqb k key) keys = true <-> In key keys.
Proof.
  rewrite existsb_exists. split.
  - intros (k & Hk & E). apply DateKey_eqb_eq in E. now subst.
  - intros H. exists key. split; [exact H|now apply DateKey_eqb_eq].
Qed.

Lemma recordsOfDay_app key l1 l2 :
  recordsOfDay tza key (l1 ++ l2) =
  recordsOfDay tza key l1 ++ recordsOfDay tza key l2.
Proof. apply filter_app. Qed.

Lemma recordsOfDay_none key seen :
  (forall r, In r seen -> dateKeyOf tza r <> key) ->
  recordsOfDay tza key seen = [].
Proof.
  intros H. unfold recordsOfDay.
  induction seen as [|r seen IH]; cbn [filter]; [reflexivity|].
  replace (DateKey_eqb key (dateKeyOf tza r)) with false.
  - apply IH. intros x Hx. apply H. now right.
  - symmetry. apply DateKey_eqb_neq. intros E.
    apply (H r (or_introl eq_refl)). now symmetry.
Qed.

Lemma grouped_push seen m r :
  grouped tza seen m ->
  grouped tza (seen ++ [r]) (pushRecord (dateKeyOf tza r) r m).
Proof.
  intros (Hnd & Hrs & Hcov). set (key := dateKeyOf tza r).
  assert (Hone : recordsOfDay tza key [r] = [r]).
  { unfold recordsOfDay. cbn [filter].
    now rewrite (proj2 (DateKey_eqb_eq key (dateKeyOf tza r)) eq_refl). }
  assert (Hother : forall k, k <> key -> recordsOfDay tza k [r] = []).
  { intros k Hk. unfold recordsOfDay. cbn [filter].
    now rewrite (proj2 (DateKey_eqb_neq k (dateKeyOf tza r)) Hk). }
  split; [|split].
  - rewrite pushRecord_keys.
    destruct (existsb _ (map fst m)) eqn:E; [exact Hnd|].
    apply NoDup_app; [exact Hnd|repeat constructor; intros []|].
    intros x Hx [<-|[]]. apply existsb_key_In in Hx. congruence.
  - intros k rs Hin.
    destruct (pushRecord_In _ _ _ _ _ Hnd Hin)
      as [[Hk Hm]|[-> [(rs0 & Hm & ->)|[Hni ->]]]].
    + destruct (Hrs _ _ Hm) as [Hne ->]. split; [exact Hne|].
      now rewrite recordsOfDay_app, (Hother k Hk), app_nil_r.
    + destruct (Hrs _ _ Hm) as [Hne ->]. split.
      * intros Hc. apply app_eq_nil in Hc. destruct Hc as [_ Hc]. discriminate.
      * now rewrite recordsOfDay_app, Hone.
    + split; [discriminate|].
      rewrite recordsOfDay_app, Hone, recordsOfDay_none; [reflexivity|].
      intros x Hx Hc. apply Hni. rewrite <- Hc. now apply Hcov.
  - intros x Hx. rewrite pushRecord_keys.
    apply in_app_iff in Hx. destruct Hx as [Hx|[<-|[]]].
    + destruct (existsb _ (map fst m)); [now apply Hcov|].
      apply in_app_iff. left. now apply Hcov.
    + fold key. destruct (existsb _ (map fst m)) eqn:E.
      * now apply existsb_key_In.
      * apply in_app_iff. right. now left.
Qed.

Lemma grouped_fold records : forall seen m,
  grouped tza seen m ->
  grouped tza (seen ++ records)
          (fold_left (fun m r => pushRecord (dateKeyOf tza r) r m) records m).
Proof.
  induction records as [|r records IH]; intros seen m H; cbn.
  - now rewrite app_nil_r.
  - replace (seen ++ r :: records) with ((seen ++ [r]) ++ records)
      by now rewrite <- app_assoc.
    apply IH. now apply grouped_push.
Qed.

Lemma groupByDate_grouped records :
  grouped tza records (groupByDate tza records).
Proof.
  apply (grouped_fold records [] []).
  split; [constructor|]. split; [intros ? ? []|intros ? []].
Qed.

Lemma StronglySorted_filter {A} (R : A -> A -> Prop) p l :
  StronglySorted R l -> StronglySorted R (filter p l).
Proof.
  induction 1 as [|a l Hs IH Hf]; cbn; [constructor|].
  destruct (p a); [|exact IH].
  constructor; [exact IH|].
  rewrite Forall_forall in *. intros x Hx. apply Hf.
  apply filter_In in Hx. tauto.
Qed.

Lemma Sorted_filter_ts p l :
  Sorted tsLe l -> Sorted tsLe (filter p l).
Proof.
  intros H. apply StronglySorted_Sorted, StronglySorted_filter.
  apply Sorted_StronglySorted; [|exact H].
  intros x y z. unfold tsLe. lia.
Qed.

End Grouping.

(* ================================================================== *)
(** ** Months follow one another *)
(* ================================================================== *)

Section MonthSteps.

Import JSDate CalendarChecks.

Lemma twelve_cases m : 1 <= m <= 12 ->
  m = 1 \/ m = 2 \/ m = 3 \/ m = 4 \/ m = 5 \/ m = 6 \/ m = 7 \/ m = 8 \/
  m = 9 \/ m = 10 \/ m = 11 \/ m = 12.
Proof. lia. Qed.

Lemma doeOf_next_month yoe m :
  1 <= m <= 12 -> m <> 2 ->
  doeOf yoe m 1 + 28 <= doeOf yoe (if m =? 12 then 1 else m + 1) 1.
Proof.
  intros H H2. unfold doeOf.
  generalize (yoe * 365 + yoe / 4 - yoe / 100). intros base.
  destruct (twelve_cases m H)
    as [->|[->|[->|[->|[->|[->|[->|[->|[->|[->|[->| ->]]]]]]]]]]];
    cbn; lia.
Qed.

Lemma febMar_all : forallb febMarOk (zrange 0 399) = true.
Proof. vm_compute. reflexivity. Qed.

Lemma doeOf_feb_mar r :
  0 <= r < 399 -> doeOf r 2 1 + 28 <= doeOf (r + 1) 3 1.
Proof.
  intros H. apply Z.leb_le.
  apply (forallb_zrange febMarOk 0 399 febMar_all). lia.
Qed.

(** The first of a month comes at least 28 days after the first of the
    month before. *)
Lemma first_of_next_month y m :
  1 <= m <= 11 ->
  days_from_civil y m 1 + 28 <= days_from_civil y (m + 1) 1.
Proof.
  intros H. rewrite !days_from_civil_era.
  destruct (Z.eq_dec m 2) as [->|H2].
  - change (janFeb 2) with 1. change (janFeb (2 + 1)) with 0.
    change (2 + 1) with 3. rewrite Z.sub_0_r.
    pose proof (Z.div_mod (y - 1) 400 ltac:(lia)) as Hdm.
    pose proof (Z.mod_pos_bound (y - 1) 400 ltac:(lia)) as Hb.
    set (e := (y - 1) / 400) in *. set (r := (y - 1) mod 400) in *.
    destruct (Z_lt_le_dec r 399) as [Hr|Hr].
    + assert (Q : y / 400 = e) by (symmetry; apply (Z.div_unique y 400 e (r + 1)); lia).
      assert (R : y mod 400 = r + 1)
        by (symmetry; apply (Z.mod_unique y 400 e (r + 1)); lia).
      rewrite Q, R.
      pose proof (doeOf_feb_mar r ltac:(lia)). lia.
    + assert (Er : r = 399) by lia.
      assert (Q : y / 400 = e + 1)
        by (symmetry; apply (Z.div_unique y 400 (e + 1) 0); lia).
      assert (R : y mod 400 = 0)
        by (symmetry; apply (Z.mod_unique y 400 (e + 1) 0); lia).
      rewrite Q, R, Er. change (doeOf 399 2 1) with 146068.
      change (doeOf 0 3 1) with 0. lia.
  - assert (J : janFeb (m + 1) = janFeb m).
    { unfold janFeb.
      destruct (Z.leb_spec (m + 1) 2), (Z.leb_spec m 2); lia. }
    rewrite J.
    pose proof (doeOf_next_month ((y - janFeb m) mod 400) m ltac:(lia) H2) as D.
    replace (m =? 12) with false in D by (symmetry; apply Z.eqb_neq; lia).
    cbv iota in D. lia.
Qed.

Lemma first_of_january y :
  days_from_civil (y - 1) 12 1 + 28 <= days_from_civil y 1 1.
Proof.
  rewrite !days_from_civil_era.
  change (janFeb 12) with 0. change (janFeb 1) with 1. rewrite Z.sub_0_r.
  pose proof (doeOf_next_month ((y - 1) mod 400) 12 ltac:(lia) ltac:(lia)) as D.
  change (if 12 =? 12 then 1 else 12 + 1) with 1 in D. lia.
Qed.

Lemma MakeDay_date year month date :
  MakeDay year month date = MakeDay year month 1 + (date - 1).
Proof. unfold MakeDay. cbv zeta. lia. Qed.

Lemma month_has_28_days year month :
  1 <= month <= 12 ->
  MakeDay year (month - 2) 1 + 28 <= MakeDay year (month - 1) 1.
Proof.
  intros H. destruct (Z.eq_dec month 1) as [->|H1].
  - rewrite (MakeDay_in_year year (1 - 1)) by lia.
    change (1 - 1 + 1) with 1.
    assert (E : MakeDay year (1 - 2) 1 = days_from_civil (year - 1) 12 1).
    { unfold MakeDay. cbv zeta.
      change ((1 - 2) / 12) with (-1). change ((1 - 2) mod 12 + 1) with 12.
      replace (year + -1) with (year - 1) by lia. lia. }
    rewrite E. apply first_of_january.
  - rewrite !MakeDay_in_year by lia.
    replace (month - 2 + 1) with (month - 1) by lia.
    replace (month - 1 + 1) with (month - 1 + 1) by lia.
    apply (first_of_next_month year (month - 1)). lia.
Qed.

End MonthSteps.

(** Grouping by day ([calculateMonthlySummary], monthly.js) files every
    record exactly once: the map has one entry per local date met, no
    entry is empty, and an entry holds the records of its date, all of
    them, in the order in which they came. *)
Theorem groupByDate_one_entry_per_day tza records :
  NoDup (map fst (groupByDate tza records)) /\
  (forall key rs,
      In (key, rs) (groupByDate tza records) ->
      rs <> [] /\ rs = LoopInvariants.recordsOfDay tza key records) /\
  (forall r,
      In r records ->
      exists rs, In (dateKeyOf tza r, rs) (groupByDate tza records) /\ In r rs).
Proof.
  destruct (groupByDate_grouped tza records) as (Hnd & Hrs & Hcov).
  split; [exact Hnd|]. split; [exact Hrs|].
  intros r Hr. specialize (Hcov r Hr).
  apply in_map_iff in Hcov. destruct Hcov as ([k rs] & Hk & Hin).
  cbn [fst] in Hk. subst k. exists rs. split; [exact Hin|].
  destruct (Hrs _ _ Hin) as [_ ->].
  unfold LoopInvariants.recordsOfDay. apply filter_In. split; [exact Hr|].
  now apply DateKey_eqb_eq.
Qed.

Lemma summarizeDays_arrays tza cfg m : forall s,
  (forall key rs, In (key, rs) m -> sortByTimestamp rs = rs) ->
  snd (summarizeDays tza cfg m s) = m.
Proof.
  induction m as [|[key rs] m IH]; intros s H; [reflexivity|].
  cbn [summarizeDays].
  pose proof (dayStep_array tza cfg key rs s) as Ha.
  destruct (dayStep tza cfg (key, rs) s) as [s1 e1]. cbn [snd] in Ha.
  specialize (IH s1 (fun k r Hin => H k r (or_intror Hin))).
  destruct (summarizeDays tza cfg m s1) as [s2 m1]. cbn [snd] in *.
  rewrite IH, Ha, (H key rs (or_introl eq_refl)).
  now destruct (_ || _).
Qed.

(** When the records come in ascending order, as the query of
    [calculateMonthlySummary] delivers them, every day's array is
    already ascending and the in-place sort of the loop changes
    nothing: the loop leaves the map as it found it. *)
Theorem ascending_records_need_no_sorting tza cfg records s :
  Sorted tsLe records ->
  (forall key rs,
      In (key, rs) (groupByDate tza records) -> sortByTimestamp rs = rs) /\
  snd (summarizeDays tza cfg (groupByDate tza records) s) =
  groupByDate tza records.
Proof.
  intros Hs.
  assert (H : forall key rs,
             In (key, rs) (groupByDate tza records) -> sortByTimestamp rs = rs).
  { intros key rs Hin.
    destruct (groupByDate_grouped tza records) as (_ & Hrs & _).
    destruct (Hrs _ _ Hin) as [_ ->].
    apply sortByTimestamp_fixed. now apply Sorted_filter_ts. }
  split; [exact H|]. now apply summarizeDays_arrays.
Qed.

Lemma ascending_records_need_no_sorting_witness :
  Sorted tsLe januaryWeek /\
  snd (summarizeDays jst nineToSix (groupByDate jst januaryWeek) emptySummary) =
  groupByDate jst januaryWeek.
Proof.
  assert (H : Sorted tsLe januaryWeek).
  { repeat (constructor; [|try (constructor; vm_compute; discriminate)]).
    constructor. }
  split; [exact H|].
  apply (ascending_records_need_no_sorting jst nineToSix januaryWeek
           emptySummary H).
Defined.

(* ================================================================== *)
(** ** Consecutive periods *)
(* ================================================================== *)

Lemma closingWindow_tiles tza year month closingDay :
  snd (closingWindow tza year month closingDay) + 1 =
  fst (closingWindow tza year (month + 1) closingDay).
Proof.
  unfold closingWindow, JSDate.newDate7. cbv zeta. cbn [fst snd].
  replace (month + 1 - 2) with (month - 1) by lia.
  unfold JSDate.UTC, JSDate.MakeDate, JSDate.MakeDay, JSDate.MakeTime,
    JSDate.msPerDay, JSDate.msPerHour, JSDate.msPerMinute, JSDate.msPerSecond.
  cbv zeta. lia.
Qed.

Lemma days_from_civil_bounds y m :
  99 <= y <= 10000 -> 1 <= m <= 12 ->
  -700000 <= JSDate.days_from_civil y m 1 <= 3000000.
Proof.
  intros Hy Hm. unfold JSDate.days_from_civil. cbv zeta.
  destruct (m <=? 2); Z.to_euclidean_division_equations; lia.
Qed.

Lemma MakeDay_bounds year month :
  100 <= year <= 9999 -> -1 <= month <= 11 ->
  -700000 <= JSDate.MakeDay year month 1 <= 3000000.
Proof.
  intros Hy Hm. unfold JSDate.MakeDay. cbv zeta.
  replace (JSDate.days_from_civil (year + month / 12) (month mod 12 + 1) 1
           + 1 - 1)
    with (JSDate.days_from_civil (year + month / 12) (month mod 12 + 1) 1)
    by lia.
  apply days_from_civil_bounds; Z.to_euclidean_division_equations; lia.
Qed.

(** With the default closing day 25, and with any closing day up to 27,
    [calculatePeriod] (monthly.js) returns, for the years 100 to 9999
    and every month, periods that tile the calendar: the period of the
    next month, which after December is January of the next year,
    starts on the millisecond after this one ends; no period is empty;
    and both ends are instants that a [Date] holds. *)
Theorem periods_tile_up_to_closing_day_27 tza year month closingDay :
  - JSDate.msPerDay <= tza <= JSDate.msPerDay ->
  100 <= year <= 9999 -> 1 <= month <= 12 -> 0 <= closingDay <= 27 ->
  let this := calculatePeriod tza year month closingDay in
  let next := if month =? 12
              then calculatePeriod tza (year + 1) 1 closingDay
              else calculatePeriod tza year (month + 1) closingDay in
  snd this + 1 = fst next /\
  fst this < snd this /\
  Z.abs (fst this) <= JSDate.maxTime /\ Z.abs (snd this) <= JSDate.maxTime.
Proof.
  intros Hz Hy Hm Hc this next. subst this next.
  assert (D : forall y m, closingDay < JSDate.daysInMonth y m).
  { intros y m. pose proof (daysInMonth_ge_28 y m). lia. }
  rewrite (calculatePeriod_meets_window tza year month)
    by (first [lia | split; [lia|apply D]]).
  pose proof (month_has_28_days year month ltac:(lia)) as M.
  pose proof (MakeDay_bounds year (month - 2) Hy ltac:(lia)) as B1.
  pose proof (MakeDay_bounds year (month - 1) Hy ltac:(lia)) as B2.
  split.
  - destruct (month =? 12) eqn:E12.
    + apply Z.eqb_eq in E12. subst month.
      rewrite calculatePeriod_meets_window
        by (first [lia | split; [lia|apply D]]).
      unfold closingWindow, JSDate.newDate7. cbv zeta.
      rewrite !fullYear_100 by lia. cbn [fst snd].
      unfold JSDate.MakeDay. cbv zeta.
      change ((12 - 1) / 12) with 0. change ((12 - 1) mod 12) with 11.
      change ((1 - 2) / 12) with (-1). change ((1 - 2) mod 12) with 11.
      replace (year + 1 + -1) with (year + 0) by lia.
      unfold JSDate.UTC, JSDate.MakeDate, JSDate.MakeTime,
        JSDate.msPerDay, JSDate.msPerHour, JSDate.msPerMinute,
        JSDate.msPerSecond. lia.
    + apply Z.eqb_neq in E12.
      rewrite calculatePeriod_meets_window
        by (first [lia | split; [lia|apply D]]).
      apply closingWindow_tiles.
  - unfold closingWindow, JSDate.newDate7. cbv zeta.
    rewrite !fullYear_100 by lia. cbn [fst snd].
    rewrite (MakeDay_date year (month - 2)), (MakeDay_date year (month - 1)).
    unfold JSDate.maxTime, JSDate.UTC, JSDate.MakeDate, JSDate.MakeTime,
      JSDate.msPerDay, JSDate.msPerHour, JSDate.msPerMinute,
      JSDate.msPerSecond in *. lia.
Qed.

Lemma periods_tile_up_to_closing_day_27_witness :
  snd (calculatePeriod jst 2025 12 25) + 1 = fst (calculatePeriod jst 2026 1 25) /\
  fst (calculatePeriod jst 2025 12 25) < snd (calculatePeriod jst 2025 12 25).
Proof.
  destruct (periods_tile_up_to_closing_day_27 jst 2025 12 25)
    as (H1 & H2 & _).
  - vm_compute. split; discriminate.
  - lia.
  - lia.
  - lia.
  - split; [exact H1|exact H2].
Defined.

(* ================================================================== *)
(** ** The time shown on the time card *)
(* ================================================================== *)

Section ShownTime.

Lemma breakMsOf_cons p l :
  History.breakMsOf (p :: l) = (snd p - fst p) + History.breakMsOf l.
Proof.
  unfold History.breakMsOf. cbn [fold_left].
  assert (G : forall l acc,
             fold_left (fun a (q : Z * Z) => a + (snd q - fst q)) l acc =
             acc + fold_left (fun a q => a + (snd q - fst q)) l 0).
  { clear. induction l as [|q l IH]; intros acc; cbn [fold_left]; [lia|].
    rewrite IH, (IH (0 + _)). lia. }
  rewrite G. lia.
Qed.

Lemma breakMsOf_app l1 l2 :
  History.breakMsOf (l1 ++ l2) = History.breakMsOf l1 + History.breakMsOf l2.
Proof.
  induction l1 as [|p l1 IH]; [reflexivity|].
  rewrite <- app_comm_cons, !breakMsOf_cons, IH. lia.
Qed.

Lemma breakMsOf_sign (P : Z -> Prop) l :
  P 0 -> (forall a b, P a -> P b -> P (a + b)) ->
  (forall p, In p l -> P (snd p - fst p)) -> P (History.breakMsOf l).
Proof.
  intros H0 Hadd. induction l as [|p l IH]; intros H; [exact H0|].
  rewrite breakMsOf_cons. apply Hadd.
  - apply H. now left.
  - apply IH. intros q Hq. apply H. now right.
Qed.

Lemma StronglySorted_pair_order (R : AttendanceRecord -> AttendanceRecord -> Prop)
      pre r mid x post :
  StronglySorted R (pre ++ r :: mid ++ x :: post) -> R r x.
Proof.
  induction pre as [|a pre IH]; cbn; intros H.
  - inversion H as [|? ? _ Hf]; subst.
    rewrite Forall_forall in Hf. apply Hf.
    apply in_app_iff. right. now left.
  - inversion H; subst. now apply IH.
Qed.

End ShownTime.

(** The daily view of the attendance table ([calculateWorkTime],
    monthly.js) sorts the day before pairing, so every interval it
    subtracts runs forward: whatever the order of the records, the time
    it deducts is not negative. *)
Theorem daily_view_never_deducts_negative rs :
  0 <= breakMs (sortByTimestamp rs).
Proof.
  rewrite breakMs_breakPairs.
  apply (breakMsOf_sign (fun z => 0 <= z)); [lia|intros; lia|].
  intros [s e] Hp. cbn [fst snd].
  apply breakPairs_In in Hp.
  destruct Hp as (pre & r & mid & x & post & E & _ & _ & _ & -> & ->).
  pose proof (sortByTimestamp_sorted rs) as Hs. rewrite E in Hs.
  apply Sorted_StronglySorted in Hs; [|intros a b c; unfold tsLe; lia].
  pose proof (StronglySorted_pair_order _ _ _ _ _ _ Hs) as H.
  unfold tsLe in H. lia.
Qed.

Lemma descending_pairs_run_backwards rs :
  Sorted HistoryRange.tsGe rs ->
  History.breakMsOf (History.breakPairs rs) <= 0.
Proof.
  intros Hs.
  apply (breakMsOf_sign (fun z => z <= 0)); [lia|intros; lia|].
  intros [s e] Hp. cbn [fst snd].
  apply breakPairs_In in Hp.
  destruct Hp as (pre & r & mid & x & post & -> & _ & _ & _ & -> & ->).
  apply Sorted_StronglySorted in Hs;
    [|intros a b c; unfold HistoryRange.tsGe; lia].
  pose proof (StronglySorted_pair_order _ _ _ _ _ _ Hs) as H.
  unfold HistoryRange.tsGe in H. lia.
Qed.

Lemma Sorted_filter_tsGe p l :
  Sorted HistoryRange.tsGe l -> Sorted HistoryRange.tsGe (filter p l).
Proof.
  intros H. apply StronglySorted_Sorted, StronglySorted_filter.
  apply Sorted_StronglySorted; [|exact H].
  intros x y z. unfold HistoryRange.tsGe. lia.
Qed.

(** The history view ([loadHistoryRecords], timecard-history.js) queries
    the records in descending order and groups them by day in that
    order.  On such a day every pair that [calculateWorkTime] forms runs
    backwards, so nothing is ever deducted; and for a finished day whose
    clock-out found is not before the clock-in found, the time shown is
    at least the gross time from that clock-in to that clock-out. *)
Theorem history_view_never_deducts tza now records key rs cin cout :
  Sorted HistoryRange.tsGe records ->
  In (key, rs) (groupByDate tza records) ->
  find (hasType clock_in) rs = Some cin ->
  find (hasType clock_out) rs = Some cout ->
  0 <= timestamp cout - timestamp cin ->
  History.breakMsOf (History.breakPairs rs) <= 0 /\
  exists w,
    History.calculateWorkTime now rs = Some w /\
    (timestamp cout - timestamp cin) / 60000 <=
    60 * History.hours w + History.minutes w.
Proof.
  intros Hs Hin Hci Hco Hg.
  assert (Hd : History.breakMsOf (History.breakPairs rs) <= 0).
  { apply descending_pairs_run_backwards.
    destruct (groupByDate_grouped tza records) as (_ & Hrs & _).
    destruct (Hrs _ _ Hin) as [_ ->]. now apply Sorted_filter_tsGe. }
  split; [exact Hd|].
  unfold History.calculateWorkTime. rewrite Hci, Hco.
  eexists. split; [reflexivity|].
  cbn [History.hours History.minutes]. change (1000 * 60) with 60000.
  set (net := (timestamp cout - timestamp cin
               - History.breakMsOf (History.breakPairs rs)) / 60000).
  assert (Hn : (timestamp cout - timestamp cin) / 60000 <= net)
    by (apply Z.div_le_mono; lia).
  assert (H0 : 0 <= net).
  { assert (0 <= (timestamp cout - timestamp cin) / 60000)
      by (apply Z.div_pos; lia). lia. }
  rewrite Z.rem_mod_nonneg by lia.
  pose proof (Z.div_mod net 60 ltac:(lia)). lia.
Qed.

Lemma history_view_never_deducts_witness :
  exists w,
    History.calculateWorkTime 0
      [punch clock_out 18 0; punch break_end 13 0;
       punch break_start 12 0; punch clock_in 9 0] = Some w /\
    (timestamp (punch clock_out 18 0) - timestamp (punch clock_in 9 0)) / 60000
    <= 60 * History.hours w + History.minutes w.
Proof.
  assert (S : Sorted HistoryRange.tsGe
                [punch clock_out 18 0; punch break_end 13 0;
                 punch break_start 12 0; punch clock_in 9 0]).
  { repeat (constructor; [|try (constructor; vm_compute; discriminate)]).
    constructor. }
  apply (history_view_never_deducts jst 0
           [punch clock_out 18 0; punch break_end 13 0;
            punch break_start 12 0; punch clock_in 9 0]
           monday
           [punch clock_out 18 0; punch break_end 13 0;
            punch break_start 12 0; punch clock_in 9 0]
           (punch clock_in 9 0) (punch clock_out 18 0) S).
  - vm_compute. left. reflexivity.
  - reflexivity.
  - reflexivity.
  - vm_compute. discriminate.
Defined.

(** The hours and minutes of [calculateWorkTime] (timecard-history.js)
    make up the net time in whole minutes whenever that time is not
    negative: the minutes are below 60 and 60 times the hours plus the
    minutes is the net time. *)
Theorem shown_time_recomposes now rs cin :
  find (hasType clock_in) rs = Some cin ->
  let finish := match find (hasType clock_out) rs with
                | Some c => timestamp c
                | None => now
                end in
  let net := (finish - timestamp cin
              - History.breakMsOf (History.breakPairs rs)) / 60000 in
  0 <= net ->
  exists w,
    History.calculateWorkTime now rs = Some w /\
    0 <= History.hours w /\ 0 <= History.minutes w < 60 /\
    60 * History.hours w + History.minutes w = net.
Proof.
  intros Hci finish net Hn.
  unfold History.calculateWorkTime. rewrite Hci.
  eexists. split; [reflexivity|].
  cbn [History.hours History.minutes]. change (1000 * 60) with 60000.
  fold finish. fold net.
  rewrite Z.rem_mod_nonneg by lia.
  pose proof (Z.div_mod net 60 ltac:(lia)).
  pose proof (Z.mod_pos_bound net 60 ltac:(lia)).
  assert (0 <= net / 60) by (apply Z.div_pos; lia). lia.
Qed.

Lemma shown_time_recomposes_witness :
  exists w,
    History.calculateWorkTime 0 dayWithBreak = Some w /\
    60 * History.hours w + History.minutes w = 480.
Proof.
  destruct (shown_time_recomposes 0 dayWithBreak (punch clock_in 9 0) eq_refl)
    as (w & Hw & _ & _ & E).
  - vm_compute. discriminate.
  - exists w. split; [exact Hw|]. rewrite E. reflexivity.
Defined.

Lemma breakPairs_without_ends rs :
  existsb (hasType break_end) rs = false -> History.breakPairs rs = [].
Proof.
  induction rs as [|r rs IH]; [reflexivity|].
  cbn [existsb History.breakPairs]. intros H.
  apply orb_false_iff in H. destruct H as [_ H].
  rewrite (IH H), (proj2 (find_none_existsb _ _) H).
  now destruct (hasType break_start r).
Qed.

(** [calculateWorkTime] of utils.js, which knows no breaks, and the one
    of the time card agree on every day without a [break_end] record:
    the same hours, minutes and finished flag, or no result at all. *)
Theorem utils_time_agrees_without_breaks now rs :
  existsb (hasType break_end) rs = false ->
  Utils.calculateWorkTime now rs =
  match History.calculateWorkTime now rs with
  | Some w => Some (Utils.mkWorkTime (History.hours w) (History.minutes w)
                                     (History.isFinished w))
  | None => None
  end.
Proof.
  intros H. unfold Utils.calculateWorkTime, History.calculateWorkTime.
  rewrite (breakPairs_without_ends rs H).
  destruct (find (hasType clock_in) rs); [|reflexivity].
  cbv zeta. cbn [History.hours History.minutes History.isFinished].
  change (History.breakMsOf []) with 0. now rewrite !Z.sub_0_r.
Qed.

Lemma utils_time_agrees_without_breaks_witness :
  Utils.calculateWorkTime 0 dayWithOpenBreak =
  Some (Utils.mkWorkTime 9 0 true).
Proof.
  rewrite (utils_time_agrees_without_breaks 0 dayWithOpenBreak eq_refl).
  reflexivity.
Defined.

(* ================================================================== *)
(** ** Range checks *)
(* ================================================================== *)


(* ================================================================== *)
(** ** The buttons of the time card *)
(* ================================================================== *)

Section Buttons.

Import Recording.

Lemma lastRecord_snoc rs r : History.lastRecord (rs ++ [r]) = Some r.
Proof.
  unfold History.lastRecord. now rewrite rev_app_distr.
Qed.

Lemma phaseAfter_snoc rs : forall p r,
  phaseAfter p (rs ++ [r]) =
  match phaseAfter p rs with
  | Some q => nextPhase q (rtype r)
  | None => None
  end.
Proof.
  induction rs as [|x rs IH]; intros p r; cbn [app phaseAfter].
  - now destruct (nextPhase p (rtype r)).
  - destruct (nextPhase p (rtype x)); [apply IH|reflexivity].
Qed.

Lemma existsb_snoc (f : AttendanceRecord -> bool) rs r :
  existsb f (rs ++ [r]) = existsb f rs || f r.
Proof.
  rewrite existsb_app. cbn [existsb]. now rewrite orb_false_r.
Qed.

(** What the records of a day look like in each phase. *)
Lemma phase_facts rs : forall p,
  phaseAfter NotYetIn rs = Some p ->
  match p with
  | NotYetIn => rs = []
  | AtWork =>
      existsb (hasType clock_in) rs = true /\
      existsb (hasType clock_out) rs = false /\
      exists r, History.lastRecord rs = Some r /\
                (rtype r = clock_in \/ rtype r = break_end)
  | OutOnBreak =>
      existsb (hasType clock_in) rs = true /\
      existsb (hasType clock_out) rs = false /\
      exists r, History.lastRecord rs = Some r /\ rtype r = break_start
  | Left =>
      existsb (hasType clock_in) rs = true /\
      existsb (hasType clock_out) rs = true /\
      exists r, History.lastRecord rs = Some r /\ rtype r = clock_out
  end.
Proof.
  induction rs as [|r rs IH] using rev_ind; intros p H.
  - cbn in H. injection H as <-. reflexivity.
  - rewrite phaseAfter_snoc in H.
    destruct (phaseAfter NotYetIn rs) as [q|] eqn:Hq; [|discriminate].
    specialize (IH q eq_refl).
    rewrite !existsb_snoc, lastRecord_snoc.
    destruct q, (rtype r) eqn:Ht; cbn in H; try discriminate;
      injection H as <-;
      try (destruct IH as (-> & -> & _)); try subst rs;
      unfold hasType; rewrite Ht; cbn; repeat split; eauto.
Qed.

(** In each phase the enabled buttons are those of the steps the phase
    allows. *)
Lemma buttons_of_phase rs p t :
  phaseAfter NotYetIn rs = Some p ->
  canPress t (fst (updateButtonStates rs)) =
  match nextPhase p t with Some _ => true | None => false end.
Proof.
  intros H. apply phase_facts in H. unfold updateButtonStates.
  destruct p.
  - subst rs. now destruct t.
  - destruct H as (-> & -> & r & -> & [E|E]); rewrite E; now destruct t.
  - destruct H as (-> & -> & r & -> & E); rewrite E; now destruct t.
  - destruct H as (_ & -> & r & -> & _). now destruct t.
Qed.

Lemma recordable_phase rs :
  recordable rs -> exists p, phaseAfter NotYetIn rs = Some p.
Proof.
  induction 1 as [|rs r _ [p Hp] Hc].
  - now exists NotYetIn.
  - rewrite (buttons_of_phase rs p _ Hp) in Hc.
    rewrite phaseAfter_snoc, Hp.
    destruct (nextPhase p (rtype r)) as [q|]; [now exists q|discriminate].
Qed.

Lemma phase_recordable rs : forall p,
  phaseAfter NotYetIn rs = Some p -> recordable rs.
Proof.
  induction rs as [|r rs IH] using rev_ind; intros p H.
  - constructor.
  - rewrite phaseAfter_snoc in H.
    destruct (phaseAfter NotYetIn rs) as [q|] eqn:Hq; [|discriminate].
    constructor; [now apply (IH q)|].
    rewrite (buttons_of_phase rs q _ Hq), H. reflexivity.
Qed.

Lemma phase_noNestedBreak rs : forall p q,
  phaseAfter p rs = Some q ->
  noNestedBreak (isOut p) rs = true.
Proof.
  induction rs as [|r rs IH]; intros p q H; [reflexivity|].
  cbn [phaseAfter] in H. cbn [noNestedBreak].
  destruct (nextPhase p (rtype r)) as [p'|] eqn:E; [|discriminate].
  specialize (IH p' q H).
  destruct p, (rtype r); cbn in E; try discriminate;
    injection E as <-; cbn in IH |- *; try exact IH.
  (* a clock-out during a break: the break stays open behind it *)
  clear IH. revert H. clear. revert q.
  induction rs as [|x rs IH]; intros q H; [reflexivity|].
  cbn [phaseAfter] in H. now destruct (rtype x).
Qed.

End Buttons.

(** The buttons of the time card ([updateButtonStates]) admit exactly
    the days that walk through the phases: clock-in first, then breaks
    that open and close in turn, then at most one clock-out, after which
    nothing more can be recorded. *)
Theorem buttons_admit_exactly_the_day_phases rs :
  Recording.recordable rs <->
  exists p, Recording.phaseAfter Recording.NotYetIn rs = Some p.
Proof.
  split.
  - apply recordable_phase.
  - intros [p H]. exact (phase_recordable rs p H).
Qed.

(** On a day recorded through the buttons no break starts while another
    is open, so the nested loops of [calculateWorkTime] pair every
    [break_end] with one [break_start] only, as a stack would. *)
Theorem recorded_days_never_nest_breaks rs :
  Recording.recordable rs ->
  noNestedBreak false rs = true /\
  History.breakPairs rs = stackPairs [] rs.
Proof.
  intros H. destruct (recordable_phase rs H) as [p Hp].
  assert (N : noNestedBreak false rs = true)
    by exact (phase_noNestedBreak rs Recording.NotYetIn p Hp).
  split; [exact N|]. symmetry. now apply stackPairs_breakPairs.
Qed.

Lemma recorded_days_never_nest_breaks_witness :
  History.breakPairs dayWithBreak = stackPairs [] dayWithBreak.
Proof.
  apply (recorded_days_never_nest_breaks dayWithBreak).
  apply (phase_recordable dayWithBreak Recording.Left). reflexivity.
Defined.

(** On a day recorded through the buttons that is not empty, the time
    card has a work time; its [isOnBreak] flag is set exactly when the
    return button is enabled, and its [isFinished] flag exactly when the
    clock-out button is disabled. *)
Theorem flags_match_the_buttons now rs :
  Recording.recordable rs ->
  rs <> [] ->
  exists w,
    History.calculateWorkTime now rs = Some w /\
    History.isOnBreak w =
      negb (Recording.breakEndDisabled (fst (Recording.updateButtonStates rs))) /\
    History.isFinished w =
      Recording.clockOutDisabled (fst (Recording.updateButtonStates rs)).
Proof.
  intros H Hne. destruct (recordable_phase rs H) as [p Hp].
  apply phase_facts in Hp.
  unfold History.calculateWorkTime, Recording.updateButtonStates.
  destruct p.
  - contradiction.
  - destruct Hp as (Hi & Ho & r & Hl & E).
    destruct (find (hasType clock_in) rs) eqn:F;
      [|rewrite (proj1 (find_none_existsb _ _) F) in Hi; discriminate].
    rewrite (proj2 (find_none_existsb _ _) Ho), Hl, Hi, Ho.
    eexists. split; [reflexivity|]. cbn. unfold hasType.
    destruct E as [-> | ->]; split; reflexivity.
  - destruct Hp as (Hi & Ho & r & Hl & E).
    destruct (find (hasType clock_in) rs) eqn:F;
      [|rewrite (proj1 (find_none_existsb _ _) F) in Hi; discriminate].
    rewrite (proj2 (find_none_existsb _ _) Ho), Hl, Hi, Ho.
    eexists. split; [reflexivity|]. cbn. unfold hasType.
    rewrite E; split; reflexivity.
  - destruct Hp as (Hi & Ho & r & Hl & E).
    destruct (find (hasType clock_in) rs) eqn:F;
      [|rewrite (proj1 (find_none_existsb _ _) F) in Hi; discriminate].
    destruct (find (hasType clock_out) rs) eqn:G;
      [|rewrite (proj1 (find_none_existsb _ _) G) in Ho; discriminate].
    rewrite Hl, Ho.
    eexists. split; [reflexivity|]. cbn. unfold hasType.
    rewrite E; split; reflexivity.
Qed.

Lemma flags_match_the_buttons_witness :
  exists w,
    History.calculateWorkTime 0 dayEndingOnBreak = Some w /\
    History.isOnBreak w = true /\ History.isFinished w = false.
Proof.
  destruct (flags_match_the_buttons 0 dayEndingOnBreak) as (w & Hw & A & B).
  - apply (phase_recordable dayEndingOnBreak Recording.OutOnBreak).
    reflexivity.
  - discriminate.
  - exists w. split; [exact Hw|]. split; [rewrite A|rewrite B]; reflexivity.
Defined.

(* ================================================================== *)
(** ** Manual entries *)
(* ================================================================== *)

(** [validateManualEntry] reads the date entered as midnight UTC and
    compares it with local instants.  At or east of Greenwich a date is
    refused as a future date exactly from the day after tomorrow on, and
    as too old exactly when it lies before the same date of last year;
    that date itself is accepted only while the local time of day is not
    beyond the offset of the zone (09:00 in Japan).  An empty employee,
    date or time is refused before the date is looked at. *)
Theorem manual_entry_window tza now1 now2 userId time y m d :
  0 <= tza < msPerDay ->
  userId <> EmptyString ->
  time <> Some EmptyString ->
  1000 <= y <= 9999 -> 1 <= m <= 12 -> 1 <= d <= daysInMonth y m ->
  let entered := days_from_civil y m d in
  let today := Day (LocalTime tza now1) in
  let lastYear :=
    days_from_civil (getFullYear tza now2 - 1) (getMonth tza now2 + 1)
                    (getDate tza now2) in
  ManualEntry.validateManualEntry tza now1 now2 userId (formatYMD y m d) time =
  (if today + 1 <? entered then ManualEntry.NoFutureDate
   else if (entered <? lastYear) ||
           ((entered =? lastYear) &&
            (tza <? TimeWithinDay (LocalTime tza now2)))
        then ManualEntry.NotOlderThanOneYear
        else ManualEntry.Valid) /\
  ManualEntry.validateManualEntry tza now1 now2 EmptyString (formatYMD y m d) time =
  ManualEntry.SelectEmployee /\
  ManualEntry.validateManualEntry tza now1 now2 userId EmptyString time =
  ManualEntry.EnterDate /\
  ManualEntry.validateManualEntry tza now1 now2 userId (formatYMD y m d)
    (Some EmptyString) = ManualEntry.EnterTime.
Proof.
  intros Hz Hu Ht Hy Hm Hd entered today lastYear.
  subst entered today lastYear.
  assert (Tu : truthyString userId = true) by now apply truthyString_iff.
  assert (Tt : match time with
               | Some t => negb (truthyString t)
               | None => false
               end = false).
  { destruct time as [[|c t]|]; [congruence|reflexivity|reflexivity]. }
  unfold ManualEntry.validateManualEntry.
  rewrite Tu, formatYMD_truthy. cbn [negb truthyString].
  split; [|repeat split].
  rewrite Tt.
  pose proof (daysInMonth_le_31 y m).
  rewrite parseDateOnly_formatYMD by lia.
  rewrite MakeDay_in_year by lia. replace (m - 1 + 1) with m by lia.
  rewrite setDate_shift.
  unfold setFullYear, setHours, getFullYear, getMonth, getDate, YearFromTime,
    MonthFromTime, DateFromTime.
  destruct (civil_from_days_valid (Day (LocalTime tza now2)))
    as (y2 & m2 & d2 & E & Hm2 & _ & _).
  rewrite E. cbn [fst snd]. cbv zeta.
  rewrite MakeDay_in_year by lia. replace (m2 - 1 + 1) with m2 by lia.
  destruct (time_split (LocalTime tza now2)) as [_ Hb].
  set (tod := TimeWithinDay (LocalTime tza now2)) in *.
  set (A := days_from_civil (y2 - 1) m2 d2).
  set (D := days_from_civil y m d).
  assert (Ed : Day (LocalTime tza (now1 + 1 * msPerDay)) =
               Day (LocalTime tza now1) + 1).
  { unfold Day, LocalTime.
    replace (now1 + 1 * msPerDay + tza) with (now1 + tza + 1 * msPerDay) by lia.
    apply Z.div_add. unfold msPerDay. lia. }
  rewrite Ed.
  set (T := Day (LocalTime tza now1)).
  unfold UTC, MakeDate, MakeTime, msPerHour, msPerMinute, msPerSecond,
    msPerDay in *.
  destruct (T + 1 <? D) eqn:F; [apply Z.ltb_lt in F|apply Z.ltb_ge in F].
  - replace (_ <? D * 86400000 + 0) with true; [reflexivity|].
    symmetry. apply Z.ltb_lt. lia.
  - replace (_ <? D * 86400000 + 0) with false
      by (symmetry; apply Z.ltb_ge; lia).
    destruct (D <? A) eqn:G; [apply Z.ltb_lt in G|apply Z.ltb_ge in G];
      cbn [orb].
    + replace (D * 86400000 + 0 <? _) with true; [reflexivity|].
      symmetry. apply Z.ltb_lt. lia.
    + destruct (D =? A) eqn:I; [apply Z.eqb_eq in I|apply Z.eqb_neq in I];
        cbn [andb].
      * rewrite I.
        destruct (tza <? tod) eqn:J;
          [apply Z.ltb_lt in J|apply Z.ltb_ge in J].
        -- replace (A * 86400000 + 0 <? _) with true; [reflexivity|].
           symmetry. apply Z.ltb_lt. lia.
        -- replace (A * 86400000 + 0 <? _) with false; [reflexivity|].
           symmetry. apply Z.ltb_ge. lia.
      * replace (D * 86400000 + 0 <? _) with false; [reflexivity|].
        symmetry. apply Z.ltb_ge. lia.
Qed.

Lemma manual_entry_window_witness :
  ManualEntry.validateManualEntry jst
    (timestamp (punch clock_in 9 0)) (timestamp (punch clock_in 9 0))
    "admin" (formatYMD 2025 1 7) None = ManualEntry.Valid.
Proof.
  destruct (manual_entry_window jst
              (timestamp (punch clock_in 9 0)) (timestamp (punch clock_in 9 0))
              "admin" None 2025 1 7) as [H _].
  - vm_compute. split; [discriminate|reflexivity].
  - discriminate.
  - discriminate.
  - lia.
  - lia.
  - vm_compute. split; discriminate.
  - rewrite H. vm_compute. reflexivity.
Defined.

(* ================================================================== *)
(** ** The table of the day and the work data of a day *)
(* ================================================================== *)

Section TableFacts.

Import AttendanceTable LoopInvariants.

Lemma find_snoc {A} (p : A -> bool) l x :
  find p (l ++ [x]) =
  match find p l with
  | Some r => Some r
  | None => if p x then Some x else None
  end.
Proof.
  induction l as [|a l IH]; cbn; [reflexivity|].
  destruct (p a); [reflexivity|exact IH].
Qed.

(** The [forEach] keeps, for each of the two kinds, the last record of
    the key. *)
Lemma fold_keepClocks tza key l : forall entry,
  fold_left (fun entry record =>
               if DateKey_eqb key (dateKeyOf tza record)
               then keepClocks entry record
               else entry) l entry =
  (match find (hasType clock_in) (rev (recordsOfDay tza key l)) with
   | Some r => Some r
   | None => fst entry
   end,
   match find (hasType clock_out) (rev (recordsOfDay tza key l)) with
   | Some r => Some r
   | None => snd entry
   end).
Proof.
  induction l as [|x l IH]; intros entry; cbn [fold_left].
  - now destruct entry.
  - rewrite IH. unfold recordsOfDay. cbn [filter].
    destruct (DateKey_eqb key (dateKeyOf tza x)); [|reflexivity].
    cbn [rev]. rewrite !find_snoc. unfold keepClocks, hasType.
    destruct (find _ (rev _)), (find _ (rev _)); try reflexivity;
      destruct (rtype x); reflexivity.
Qed.

Lemma first_is_least (p : AttendanceRecord -> bool) l r :
  StronglySorted tsLe l -> find p l = Some r ->
  forall x, In x l -> p x = true -> timestamp r <= timestamp x.
Proof.
  induction 1 as [|a l Hs IH Hf]; [discriminate|].
  cbn [find]. intros Hr x Hx Hp.
  destruct (p a) eqn:Ha.
  - injection Hr as <-. destruct Hx as [<-|Hx]; [lia|].
    rewrite Forall_forall in Hf. exact (Hf x Hx).
  - destruct Hx as [<-|Hx]; [congruence|]. now apply IH.
Qed.

Lemma last_is_least (p : AttendanceRecord -> bool) l r :
  StronglySorted HistoryRange.tsGe l -> find p (rev l) = Some r ->
  forall x, In x l -> p x = true -> timestamp r <= timestamp x.
Proof.
  induction 1 as [|a l Hs IH Hf]; [discriminate|].
  cbn [rev]. rewrite find_snoc. intros Hr x Hx Hp.
  rewrite Forall_forall in Hf.
  destruct (find p (rev l)) as [r'|] eqn:F.
  - injection Hr as <-. destruct Hx as [<-|Hx]; [|now apply IH].
    apply find_some in F. destruct F as [F _]. apply in_rev in F.
    exact (Hf r' F).
  - destruct (p a); [|discriminate]. injection Hr as <-.
    destruct Hx as [<-|Hx]; [lia|].
    pose proof (find_none _ _ F x (proj1 (in_rev l x) Hx)). congruence.
Qed.

(** On a list in descending order, the last record of a kind and the
    first record of that kind after sorting carry the same instant. *)
Lemma last_and_sorted_first (p : AttendanceRecord -> bool) l :
  StronglySorted HistoryRange.tsGe l ->
  match find p (rev l), find p (sortByTimestamp l) with
  | Some a, Some b => timestamp a = timestamp b
  | None, None => True
  | _, _ => False
  end.
Proof.
  intros Hs.
  pose proof (sortByTimestamp_perm l) as Hp.
  pose proof (sortByTimestamp_sorted l) as Ha.
  apply Sorted_StronglySorted in Ha; [|intros a b c; unfold tsLe; lia].
  destruct (find p (rev l)) as [a|] eqn:Fa,
           (find p (sortByTimestamp l)) as [b|] eqn:Fb.
  - pose proof (find_some _ _ Fa) as [Ia Pa]. apply in_rev in Ia.
    pose proof (find_some _ _ Fb) as [Ib Pb].
    pose proof (last_is_least p l a Hs Fa b
                  (Permutation_in _ (Permutation_sym Hp) Ib) Pb).
    pose proof (first_is_least p _ b Ha Fb a (Permutation_in _ Hp Ia) Pa).
    lia.
  - pose proof (find_some _ _ Fa) as [Ia Pa]. apply in_rev in Ia.
    pose proof (find_none _ _ Fb a (Permutation_in _ Hp Ia)). congruence.
  - pose proof (find_some _ _ Fb) as [Ib Pb].
    apply (Permutation_in _ (Permutation_sym Hp)) in Ib.
    pose proof (find_none _ _ Fa b (proj1 (in_rev l b) Ib)). congruence.
  - exact I.
Qed.

End TableFacts.

(** The table of the day ([displayRecords], monthly.js), given the
    records of one employee in descending order, keeps the last
    clock-in and the last clock-out it meets for a date;
    [calculateDayWorkData], given the same records of that date sorted
    ascending, takes the first of each.  Both come to the same instants:
    the duration badge shows the hours and minutes of the [workMinutes]
    of [calculateDayWorkData], and the dash exactly when
    [calculateDayWorkData] returns null.  (The monthly loop calls
    [calculateDayWorkData] only on days without a leave or absence
    record, and the table may be given a filtered list; the statement
    is about one list handed to both.) *)
Theorem table_duration_matches_day_data tza cfg date key records :
  Sorted HistoryRange.tsGe records ->
  AttendanceTable.duration (AttendanceTable.recordsMapAt tza key records) =
  match calculateDayWorkData tza
          (sortByTimestamp (LoopInvariants.recordsOfDay tza key records))
          cfg date with
  | Some d => Some (workMinutes d / 60, Z.rem (workMinutes d) 60)
  | None => None
  end.
Proof.
  intros Hs. unfold AttendanceTable.recordsMapAt.
  rewrite fold_keepClocks. cbn [fst snd].
  set (l := LoopInvariants.recordsOfDay tza key records).
  assert (Hl : StronglySorted HistoryRange.tsGe l).
  { apply StronglySorted_filter. apply Sorted_StronglySorted; [|exact Hs].
    intros a b c. unfold HistoryRange.tsGe. lia. }
  pose proof (last_and_sorted_first (hasType clock_in) l Hl) as Hi.
  pose proof (last_and_sorted_first (hasType clock_out) l Hl) as Ho.
  destruct (find (hasType clock_in) (rev l)) as [a|],
           (find (hasType clock_in) (sortByTimestamp l)) as [a'|] eqn:Fi;
    try contradiction.
  - destruct (find (hasType clock_out) (rev l)) as [b|],
             (find (hasType clock_out) (sortByTimestamp l)) as [b'|] eqn:Fo;
      try contradiction.
    + destruct (calculateDayWorkData_complete tza _ cfg date a' b' Fi Fo)
        as (d & -> & Hw & _).
      rewrite Hw. cbn [AttendanceTable.duration].
      change (1000 * 60) with 60000. now rewrite Hi, Ho.
    + now rewrite (calculateDayWorkData_no_clock_out tza _ cfg date Fo).
  - rewrite (calculateDayWorkData_no_clock_in tza _ cfg date Fi).
    cbn. reflexivity.
Qed.

Lemma table_duration_matches_day_data_witness :
  AttendanceTable.duration
    (AttendanceTable.recordsMapAt jst monday
       [punch clock_out 18 0; punch break_end 13 0;
        punch break_start 12 0; punch clock_in 9 0]) = Some (9, 0).
Proof.
  rewrite (table_duration_matches_day_data jst (Some nineToSix)
             (Some (timestamp (punch clock_in 0 0))) monday).
  - vm_compute. reflexivity.
  - repeat (constructor; [|try (constructor; vm_compute; discriminate)]).
    constructor.
Defined.
